(** * Triforce robot: arming state machine, failsafe, calibration and drive mixer

    A shallow embedding of [src/commands.cpp] and [src/tasks.cpp].  Every task
    of [tasks.cpp] is an endless loop around one body; the body is embedded as
    a function from the shared [thread_args_t] record to the record after one
    pass, together with what the pass emits (return code or ESC calls).

    C++ [float] is IEEE-754 binary32 and [double] is binary64; both are
    modelled bit-exactly with the parameterised operations of [SpecFloat]. *)

From Stdlib Require Import String.
From Stdlib Require Import ZArith List Bool Lia.
From Stdlib Require Import Floats.SpecFloat.
Import ListNotations.

Set Implicit Arguments.

(** ** Machine arithmetic *)

(** C++ [float]: 24 bits of precision, infinities at exponent 128. *)
Module F32.
Definition prec : Z := 24.
Definition emax : Z := 128.
Definition t : Type := spec_float.

Definition add : t -> t -> t := SFadd prec emax.
Definition sub : t -> t -> t := SFsub prec emax.
Definition mul : t -> t -> t := SFmul prec emax.
Definition div : t -> t -> t := SFdiv prec emax.
Definition neg : t -> t := SFopp.
Definition ltb : t -> t -> bool := SFltb.
Definition gtb (x y : t) : bool := SFltb y x.
Definition leb : t -> t -> bool := SFleb.
Definition geb (x y : t) : bool := SFleb y x.

(** An integer literal converted to [float]. *)
Definition of_Z (n : Z) : t := binary_normalize prec emax n 0 false.

(** Rounding of an arbitrary finite binary number to [float]. *)
Definition round (x : spec_float) : t :=
  match x with
  | S754_finite s m e => binary_round prec emax s m e
  | _ => x
  end.
End F32.

(** C++ [double]: 53 bits of precision, infinities at exponent 1024. *)
Module F64.
Definition prec : Z := 53.
Definition emax : Z := 1024.
Definition t : Type := spec_float.

Definition add : t -> t -> t := SFadd prec emax.
Definition sub : t -> t -> t := SFsub prec emax.
Definition mul : t -> t -> t := SFmul prec emax.
Definition div : t -> t -> t := SFdiv prec emax.
Definition sqrt : t -> t := SFsqrt prec emax.

Definition of_Z (n : Z) : t := binary_normalize prec emax n 0 false.

(** The literal [0.5]. *)
Definition half : t := binary_normalize prec emax 1 (-1) false.

Definition round (x : spec_float) : t :=
  match x with
  | S754_finite s m e => binary_round prec emax s m e
  | _ => x
  end.
End F64.

(** The conversions [(double)x] and [(float)d]. *)
Definition to_double (x : F32.t) : F64.t := F64.round x.
Definition to_float (d : F64.t) : F32.t := F32.round d.

Declare Scope f32_scope.
Delimit Scope f32_scope with f32.
Infix "+" := F32.add : f32_scope.
Infix "-" := F32.sub : f32_scope.
Infix "*" := F32.mul : f32_scope.
Infix "/" := F32.div : f32_scope.
Infix "<?" := F32.ltb : f32_scope.
Infix ">?" := F32.gtb : f32_scope.

(** The literals that occur in the sources. *)
Definition f0 : F32.t := F32.of_Z 0.
Definition f5 : F32.t := F32.of_Z 5.
Definition f50 : F32.t := F32.of_Z 50.
Definition f70 : F32.t := F32.of_Z 70.
Definition f100 : F32.t := F32.of_Z 100.
Definition f10000 : F32.t := F32.of_Z 10000.

(** ** Types shared between the threads ([states.h], [return_codes.h],
       [commands.h], [thread_args.h]) *)

Inductive state_t : Type :=
  | STATE_DISARMED
  | STATE_DRIVE_ONLY
  | STATE_WEAPON_ONLY
  | STATE_FULLY_ARMED.

Inductive ret_t : Type :=
  | RET_OK
  | RET_ERROR
  | RET_ALREADY_DISARMED
  | RET_ALREADY_ARMED.

Inductive command_id_t : Type :=
  | FULLY_DISARM
  | PARTIAL_DISARM
  | PARTIAL_ARM
  | FULLY_ARM
  | STATUS.

Record command_t : Type := { id : command_id_t; name : string }.

(** [channel_limits[controller][channel]]: calibrated pulse-width range. *)
Record channel_limits_t : Type := { min : F32.t; max : F32.t }.

(** [outputs]: the mixer's results, kept in the shared record between passes. *)
Record outputs_t : Type := {
  wheel_1 : F32.t;
  wheel_2 : F32.t;
  wheel_3 : F32.t;
  weapon_motor_1 : F32.t;
  weapon_motor_2 : F32.t;
  weapon_motor_3 : F32.t
}.

(** The part of [thread_args_t] that the modelled code reads or writes.
    Arrays are total functions of their indices. *)
Record thread_args_t : Type := {
  state : state_t;
  controls : nat -> nat -> F32.t;
  channel_limits : nat -> nat -> channel_limits_t;
  outputs : outputs_t
}.

Definition set_state (a : thread_args_t) (s : state_t) : thread_args_t :=
  {| state := s; controls := controls a;
     channel_limits := channel_limits a; outputs := outputs a |}.

Definition set_controls (a : thread_args_t) (c : nat -> nat -> F32.t)
  : thread_args_t :=
  {| state := state a; controls := c;
     channel_limits := channel_limits a; outputs := outputs a |}.

Definition set_channel_limits (a : thread_args_t)
    (l : nat -> nat -> channel_limits_t) : thread_args_t :=
  {| state := state a; controls := controls a;
     channel_limits := l; outputs := outputs a |}.

Definition set_outputs (a : thread_args_t) (o : outputs_t) : thread_args_t :=
  {| state := state a; controls := controls a;
     channel_limits := channel_limits a; outputs := o |}.

(** Assignment to one cell of a two-dimensional array. *)
Definition upd2 {A : Type} (f : nat -> nat -> A) (i j : nat) (v : A)
  : nat -> nat -> A :=
  fun i' j' => if (Nat.eqb i' i && Nat.eqb j' j)%bool then v else f i' j'.

(** [for (i = 0; i < n; i++) for (j = 0; j < m; j++) body(i, j)]. *)
Definition for2 {S : Type} (n m : nat) (body : nat -> nat -> S -> S) (s : S)
  : S :=
  fold_left (fun s i => fold_left (fun s j => body i j s) (seq 0 m) s)
            (seq 0 n) s.

(** Constants of the receiver layout, declared in headers outside the two
    source files; they are taken as parameters. *)
Record rc_config : Type := {
  RC_NUMBER_CONTROLLERS : nat;
  RC_NUMBER_CHANNELS : nat;
  RC_0_THROTTLE : nat;
  RC_0_ELEVATION : nat;
  RC_0_RUDDER : nat;
  RC_0_AILERON : nat;
  RC_0_ARM_SWITCH : nat;
  RC_1_THROTTLE : nat;
  RC_1_ELEVATION : nat;
  RC_1_RUDDER : nat;
  RC_1_AILERON : nat;
  RC_1_ARM_SWITCH : nat;
  RC_SWITCH_MIDPOINT : F32.t
}.

(** The C library functions the mixer calls.  They are outside the
    repository and are taken as parameters, in their [double] versions, as in
    the explicit casts of the calls to [atan2] and [sqrt]; [sqrt] itself is
    the correctly rounded IEEE operation. *)
Record libm : Type := {
  atan2 : F64.t -> F64.t -> F64.t;
  sin : F64.t -> F64.t;
  cos : F64.t -> F64.t
}.

(** Modelled from the spec: the helper [clamp] ([utils.h]/[tmath.h] are not
    among the sources); "clamps raw value into [limits.min, limits.max]". *)
Definition clamp (x lo hi : F32.t) : F32.t :=
  if (x <? lo)%f32 then lo else if (x >? hi)%f32 then hi else x.

(** Modelled from the spec: the helper [map]; "remap each wN from its expected
    range [-70,70] to [0,100]", the linear map of one interval onto another. *)
Definition map (x in_min in_max out_min out_max : F32.t) : F32.t :=
  ((x - in_min) * (out_max - out_min) / (in_max - in_min) + out_min)%f32.

(** Modelled from the spec: the macro [BETWEEN]; "within [0,2]", "within
    [45,55]", both ends included. *)
Definition BETWEEN (x : F32.t) (lo hi : Z) : bool :=
  F32.geb x (F32.of_Z lo) && F32.leb x (F32.of_Z hi).

(** ** commands.cpp *)

Definition command_fully_disarm (command : command_t) (targs : thread_args_t)
  : thread_args_t * ret_t :=
  match state targs with
  | STATE_DISARMED => (targs, RET_ALREADY_DISARMED)
  | _ => (set_state targs STATE_DISARMED, RET_OK)
  end.

(** The [default:] arm of the switch is unreachable: [state_t] has exactly the
    four enumerators. *)
Definition command_partial_disarm (command : command_t) (targs : thread_args_t)
  : thread_args_t * ret_t :=
  match state targs with
  | STATE_DISARMED => (targs, RET_ALREADY_DISARMED)
  | STATE_DRIVE_ONLY => (set_state targs STATE_DISARMED, RET_OK)
  | STATE_WEAPON_ONLY => (set_state targs STATE_DRIVE_ONLY, RET_OK)
  | STATE_FULLY_ARMED => (set_state targs STATE_WEAPON_ONLY, RET_OK)
  end.

Definition command_partial_arm (command : command_t) (targs : thread_args_t)
  : thread_args_t * ret_t :=
  match state targs with
  | STATE_DISARMED => (set_state targs STATE_DRIVE_ONLY, RET_OK)
  | STATE_DRIVE_ONLY => (set_state targs STATE_WEAPON_ONLY, RET_OK)
  | STATE_WEAPON_ONLY => (set_state targs STATE_FULLY_ARMED, RET_OK)
  | STATE_FULLY_ARMED => (targs, RET_ALREADY_ARMED)
  end.

Definition command_fully_arm (command : command_t) (targs : thread_args_t)
  : thread_args_t * ret_t :=
  match state targs with
  | STATE_FULLY_ARMED => (targs, RET_ALREADY_ARMED)
  | _ => (set_state targs STATE_FULLY_ARMED, RET_OK)
  end.

(** [command_status] only prints. *)
Definition command_status (command : command_t) (targs : thread_args_t)
  : thread_args_t * ret_t :=
  (targs, RET_OK).

Definition command_execute (command : command_t) (targs : thread_args_t)
  : thread_args_t * ret_t :=
  match id command with
  | FULLY_DISARM => command_fully_disarm command targs
  | PARTIAL_DISARM => command_partial_disarm command targs
  | PARTIAL_ARM => command_partial_arm command targs
  | FULLY_ARM => command_fully_arm command targs
  | STATUS => command_status command targs
  end.

(** [task_process_commands]: the commands taken from the mail queue are
    executed in order on the shared record; the return codes are logged. *)
Fixpoint task_process_commands (queue : list command_t) (args : thread_args_t)
  : thread_args_t * list ret_t :=
  match queue with
  | [] => (args, [])
  | command_q :: rest =>
      let '(args1, err) := command_execute command_q args in
      let '(args2, errs) := task_process_commands rest args1 in
      (args2, err :: errs)
  end.

(** ** tasks.cpp *)

(** *** [task_read_receiver] *)

(** The four statements applied to one raw pulse width [pw]:
    clamp into the limits, then rescale to 0..100. *)
Definition normalize (pw : F32.t) (limits : channel_limits_t) : F32.t :=
  let min := min limits in
  let max := max limits in
  let pw := clamp pw min max in
  ((pw - min) / (max - min) * f100)%f32.

(** One pass over every controller and channel; [pulsewidth controller
    channel] is what the receiver reports during the pass. *)
Definition task_read_receiver (cfg : rc_config)
    (pulsewidth : nat -> nat -> F32.t) (args : thread_args_t) : thread_args_t :=
  for2 (RC_NUMBER_CONTROLLERS cfg) (RC_NUMBER_CHANNELS cfg)
    (fun controller channel args =>
       let v := normalize (pulsewidth controller channel)
                          (channel_limits args controller channel) in
       set_controls args (upd2 (controls args) controller channel v))
    args.

(** *** [task_arming] *)

(** The [switch (args->state)] of the task, given the four flags. *)
Definition arming_switch (drive_switch weapon_switch drive_arm weapon_arm : bool)
    (st : state_t) : state_t :=
  match st with
  | STATE_FULLY_ARMED =>
      if negb drive_switch && negb weapon_switch then STATE_DISARMED
      else if drive_switch && negb weapon_switch then STATE_DRIVE_ONLY
      else if negb drive_switch && weapon_switch then STATE_WEAPON_ONLY
      else st
  | STATE_DRIVE_ONLY =>
      if negb drive_switch then STATE_DISARMED
      else if weapon_arm then STATE_FULLY_ARMED
      else st
  | STATE_WEAPON_ONLY =>
      if negb weapon_switch then STATE_DISARMED
      else if drive_arm then STATE_FULLY_ARMED
      else st
  | STATE_DISARMED =>
      if drive_arm && weapon_arm then STATE_FULLY_ARMED
      else if drive_arm then STATE_DRIVE_ONLY
      else if weapon_arm then STATE_WEAPON_ONLY
      else st
  end.

(** One pass of the task; [drive_stalled] and [weapon_stalled] are the answers
    of [is_drive_stalled] and [is_weapon_stalled], which read the receivers. *)
Definition task_arming (cfg : rc_config) (drive_stalled weapon_stalled : bool)
    (args : thread_args_t) : thread_args_t :=
  let weapon_switch :=
    (controls args 0 (RC_0_ARM_SWITCH cfg) >? RC_SWITCH_MIDPOINT cfg)%f32 in
  let drive_switch :=
    (controls args 1 (RC_1_ARM_SWITCH cfg) >? RC_SWITCH_MIDPOINT cfg)%f32 in
  let weapon_arm :=
    weapon_switch && negb weapon_stalled &&
    BETWEEN (controls args 0 (RC_0_THROTTLE cfg)) 0 2 &&
    BETWEEN (controls args 0 (RC_0_ELEVATION cfg)) 45 55 &&
    BETWEEN (controls args 0 (RC_0_RUDDER cfg)) 45 55 &&
    BETWEEN (controls args 0 (RC_0_AILERON cfg)) 45 55 in
  let drive_arm :=
    drive_switch && negb drive_stalled &&
    BETWEEN (controls args 1 (RC_1_THROTTLE cfg)) 0 2 &&
    BETWEEN (controls args 1 (RC_1_ELEVATION cfg)) 45 55 &&
    BETWEEN (controls args 1 (RC_1_RUDDER cfg)) 45 55 &&
    BETWEEN (controls args 1 (RC_1_AILERON cfg)) 45 55 in
  set_state args
    (arming_switch drive_switch weapon_switch drive_arm weapon_arm (state args)).

(** *** [task_failsafe] *)

(** One pass; the two flags are the answers of [is_drive_stalled] and
    [is_weapon_stalled].  The switch has no arm for [STATE_DISARMED]. *)
Definition task_failsafe (drive_inactive weapon_inactive : bool)
    (args : thread_args_t) : thread_args_t :=
  match state args with
  | STATE_FULLY_ARMED =>
      if drive_inactive && weapon_inactive then set_state args STATE_DISARMED
      else if drive_inactive && negb weapon_inactive
      then set_state args STATE_WEAPON_ONLY
      else if negb drive_inactive && weapon_inactive
      then set_state args STATE_DRIVE_ONLY
      else args
  | STATE_DRIVE_ONLY =>
      if drive_inactive then set_state args STATE_DISARMED else args
  | STATE_WEAPON_ONLY =>
      if weapon_inactive then set_state args STATE_DISARMED else args
  | STATE_DISARMED => args
  end.

(** *** [task_set_escs] *)

Inductive esc_t : Type :=
  | esc_drive (i : nat)
  | esc_weapon (i : nat).

(** A call on one ESC object. *)
Inductive esc_call : Type :=
  | setThrottle (esc : esc_t) (throttle : F32.t)
  | failsafe (esc : esc_t).

(** [const float sqrt3o2 = 1.0*sqrt(3.0)/2.0;], evaluated in [double]. *)
Definition sqrt3o2 : F32.t :=
  to_float (F64.div (F64.mul (F64.of_Z 1) (F64.sqrt (F64.of_Z 3))) (F64.of_Z 2)).

(** [(float)sqrt((double)((x*x)+(y*y)))] *)
Definition stick_magnitude (x y : F32.t) : F32.t :=
  to_float (F64.sqrt (to_double (x * x + y * y)%f32)).

(** The computation of the output values, from the first assignment to the
    three final [clamp]s.  [acc_1], [acc_2], [acc_3] stand for the fields
    [args->outputs.wheel_1..3] while they are being updated in place; in the
    branch [magnitude > 5.0f] the update is [+=] on the value the fields hold
    when the pass begins. *)
Definition calculate_outputs (cfg : rc_config) (m : libm) (args : thread_args_t)
  : outputs_t :=
  let o := outputs args in
  let weapon_motor_1 := controls args 0 (RC_0_THROTTLE cfg) in
  let weapon_motor_2 := controls args 0 (RC_0_THROTTLE cfg) in
  let weapon_motor_3 := controls args 0 (RC_0_THROTTLE cfg) in
  let x := (controls args 1 (RC_1_AILERON cfg) - f50)%f32 in
  let y := (controls args 1 (RC_1_ELEVATION cfg) - f50)%f32 in
  let theta := to_float (atan2 m (to_double x) (to_double y)) in
  let magnitude := stick_magnitude x y in
  let '(acc_1, acc_2, acc_3) :=
    if (magnitude >? f5)%f32 then
      let vx := to_float (F64.mul (to_double magnitude) (sin m (to_double theta))) in
      let vy := to_float (F64.mul (to_double magnitude) (cos m (to_double theta))) in
      let w0 := F32.neg vx in
      let w1 := to_float (F64.sub (F64.mul F64.half (to_double vx))
                                  (to_double (sqrt3o2 * vy)%f32)) in
      let w2 := to_float (F64.add (F64.mul F64.half (to_double vx))
                                  (to_double (sqrt3o2 * vy)%f32)) in
      let w0_speed := map w0 (F32.neg f70) f70 f0 f100 in
      let w1_speed := map w1 (F32.neg f70) f70 f0 f100 in
      let w2_speed := map w2 (F32.neg f70) f70 f0 f100 in
      ((wheel_1 o + (w0_speed - f50))%f32,
       (wheel_2 o + (w1_speed - f50))%f32,
       (wheel_3 o + (w2_speed - f50))%f32)
    else (f50, f50, f50) in
  let acc_1 := (acc_1 + (controls args 1 (RC_1_RUDDER cfg) - f50))%f32 in
  let acc_2 := (acc_2 + (controls args 1 (RC_1_RUDDER cfg) - f50))%f32 in
  let acc_3 := (acc_3 + (controls args 1 (RC_1_RUDDER cfg) - f50))%f32 in
  {| wheel_1 := clamp acc_1 f0 f100;
     wheel_2 := clamp acc_2 f0 f100;
     wheel_3 := clamp acc_3 f0 f100;
     weapon_motor_1 := weapon_motor_1;
     weapon_motor_2 := weapon_motor_2;
     weapon_motor_3 := weapon_motor_3 |}.

(** The [switch (args->state)] that talks to the ESCs, in call order. *)
Definition dispatch_escs (st : state_t) (o : outputs_t) : list esc_call :=
  match st with
  | STATE_FULLY_ARMED =>
      [ setThrottle (esc_weapon 0) (weapon_motor_1 o);
        setThrottle (esc_weapon 1) (weapon_motor_2 o);
        setThrottle (esc_weapon 2) (weapon_motor_3 o);
        setThrottle (esc_drive 0) (wheel_1 o);
        setThrottle (esc_drive 1) (wheel_2 o);
        setThrottle (esc_drive 2) (wheel_3 o) ]
  | STATE_DRIVE_ONLY =>
      [ setThrottle (esc_drive 0) (wheel_1 o);
        setThrottle (esc_drive 1) (wheel_2 o);
        setThrottle (esc_drive 2) (wheel_3 o) ]
  | STATE_WEAPON_ONLY =>
      [ setThrottle (esc_weapon 0) (weapon_motor_1 o);
        setThrottle (esc_weapon 1) (weapon_motor_2 o);
        setThrottle (esc_weapon 2) (weapon_motor_3 o) ]
  | STATE_DISARMED =>
      [ failsafe (esc_drive 0);
        failsafe (esc_drive 1);
        failsafe (esc_drive 2);
        failsafe (esc_weapon 0);
        failsafe (esc_weapon 1);
        failsafe (esc_weapon 2) ]
  end.

(** One pass of the task: the record afterwards and the ESC calls made. *)
Definition task_set_escs (cfg : rc_config) (m : libm) (args : thread_args_t)
  : thread_args_t * list esc_call :=
  let args := set_outputs args (calculate_outputs cfg m args) in
  (args, dispatch_escs (state args) (outputs args)).

(** *** [task_calibrate_channels] *)

Definition calibration_time_ms : Z := 10000.
Definition calibration_tick : Z := 100.

(** Arithmetic on [unsigned] wraps modulo 2^32. *)
Definition wrap_unsigned (z : Z) : Z := z mod 2 ^ 32.

(** "Set all limits to extremes": [min = 10000.0f], [max = -10000.0f]. *)
Definition limits_extremes : channel_limits_t :=
  {| min := f10000; max := F32.of_Z (-10000) |}.

(** "Find min", then "Find max", for one sample [tmp] of one channel. *)
Definition calibrate_sample (l : channel_limits_t) (tmp : F32.t)
  : channel_limits_t :=
  let l := if (tmp <? min l)%f32 then {| min := tmp; max := max l |} else l in
  if (tmp >? max l)%f32 then {| min := min l; max := tmp |} else l.

Definition set_extremes (cfg : rc_config) (args : thread_args_t)
  : thread_args_t :=
  for2 (RC_NUMBER_CONTROLLERS cfg) (RC_NUMBER_CHANNELS cfg)
    (fun controller channel args =>
       set_channel_limits args
         (upd2 (channel_limits args) controller channel limits_extremes))
    args.

(** The two nested [for] loops inside the countdown: one sample per channel. *)
Definition sample_channels (cfg : rc_config) (pulsewidth : nat -> nat -> F32.t)
    (args : thread_args_t) : thread_args_t :=
  for2 (RC_NUMBER_CONTROLLERS cfg) (RC_NUMBER_CHANNELS cfg)
    (fun controller channel args =>
       let tmp := pulsewidth controller channel in
       set_channel_limits args
         (upd2 (channel_limits args) controller channel
               (calibrate_sample (channel_limits args controller channel) tmp)))
    args.

(** [while (calibration_time > 0) { ...; calibration_time -= calibration_tick; }]
    [receiver k] is what the receivers report during the [k]-th round of the
    countdown; [fuel] bounds the number of rounds. *)
Fixpoint calibration_loop (fuel : nat) (cfg : rc_config)
    (receiver : nat -> nat -> nat -> F32.t) (round : nat)
    (calibration_time : Z) (args : thread_args_t) : option thread_args_t :=
  if (calibration_time >? 0)%Z then
    match fuel with
    | O => None
    | S fuel =>
        calibration_loop fuel cfg receiver (S round)
          (wrap_unsigned (calibration_time - calibration_tick))
          (sample_channels cfg (receiver round) args)
    end
  else Some args.

(** One activation of the task. *)
Definition task_calibrate_channels (fuel : nat) (cfg : rc_config)
    (receiver : nat -> nat -> nat -> F32.t) (args : thread_args_t)
  : option thread_args_t :=
  calibration_loop fuel cfg receiver 0 calibration_time_ms
                   (set_extremes cfg args).

(** What the activation does to a single channel: the limits start at the
    extremes and take in the channel's samples one after the other. *)
Definition calibrate_channel (samples : list F32.t) : channel_limits_t :=
  fold_left calibrate_sample samples limits_extremes.

(** The samples one channel delivers during the first [rounds] rounds. *)
Definition channel_stream (receiver : nat -> nat -> nat -> F32.t)
    (controller channel rounds : nat) : list F32.t :=
  List.map (fun k => receiver k controller channel) (seq 0 rounds).

(** ** The arming table of the specification (section 4.1)

    These definitions follow the specification's words; they are what the
    code above is compared with. *)

Inductive axis_t : Type := Drive | Weapon.

Inductive request_t : Type :=
  | Disarm
  | Promote (axis : axis_t)
  | Demote (axis : axis_t).

(** The table, row by row: current state, request, next state. *)
Definition table_next (current : state_t) (request : request_t) : state_t :=
  match current, request with
  | STATE_DISARMED, Disarm => STATE_DISARMED
  | STATE_DISARMED, Promote Drive => STATE_DRIVE_ONLY
  | STATE_DISARMED, Promote Weapon => STATE_WEAPON_ONLY
  | STATE_DISARMED, Demote _ => STATE_DISARMED
  | STATE_DRIVE_ONLY, Disarm => STATE_DISARMED
  | STATE_DRIVE_ONLY, Promote _ => STATE_FULLY_ARMED
  | STATE_DRIVE_ONLY, Demote Drive => STATE_DISARMED
  | STATE_DRIVE_ONLY, Demote Weapon => STATE_DRIVE_ONLY
  | STATE_WEAPON_ONLY, Disarm => STATE_DISARMED
  | STATE_WEAPON_ONLY, Promote _ => STATE_FULLY_ARMED
  | STATE_WEAPON_ONLY, Demote Drive => STATE_WEAPON_ONLY
  | STATE_WEAPON_ONLY, Demote Weapon => STATE_DISARMED
  | STATE_FULLY_ARMED, Disarm => STATE_DISARMED
  | STATE_FULLY_ARMED, Promote _ => STATE_FULLY_ARMED
  | STATE_FULLY_ARMED, Demote Drive => STATE_WEAPON_ONLY
  | STATE_FULLY_ARMED, Demote Weapon => STATE_DRIVE_ONLY
  end.

Definition all_requests : list request_t :=
  [Disarm; Promote Drive; Promote Weapon; Demote Drive; Demote Weapon].

Definition state_eqb (a b : state_t) : bool :=
  match a, b with
  | STATE_DISARMED, STATE_DISARMED
  | STATE_DRIVE_ONLY, STATE_DRIVE_ONLY
  | STATE_WEAPON_ONLY, STATE_WEAPON_ONLY
  | STATE_FULLY_ARMED, STATE_FULLY_ARMED => true
  | _, _ => false
  end.

(** [table_edge s s'] holds when some cell of row [s] names [s']. *)
Definition table_edge (s s' : state_t) : bool :=
  existsb (fun r => state_eqb (table_next s r) s') all_requests.

(** The arming level: which axes may receive live actuator commands.  One
    level is below another when its live axes are among the other's; the two
    partial states are siblings, neither below the other. *)
Definition drive_live (s : state_t) : bool :=
  match s with
  | STATE_DRIVE_ONLY | STATE_FULLY_ARMED => true
  | _ => false
  end.

Definition weapon_live (s : state_t) : bool :=
  match s with
  | STATE_WEAPON_ONLY | STATE_FULLY_ARMED => true
  | _ => false
  end.

Definition level_le (s s' : state_t) : bool :=
  implb (drive_live s) (drive_live s') && implb (weapon_live s) (weapon_live s').

Definition level_lt (s s' : state_t) : bool :=
  level_le s s' && negb (state_eqb s s').

(** ** Readings of an ESC call trace *)

(** The ESCs that received [setThrottle], in call order. *)
Fixpoint throttled (calls : list esc_call) : list esc_t :=
  match calls with
  | [] => []
  | setThrottle e _ :: rest => e :: throttled rest
  | failsafe _ :: rest => throttled rest
  end.

(** The ESCs that received [failsafe], in call order. *)
Fixpoint failsafed (calls : list esc_call) : list esc_t :=
  match calls with
  | [] => []
  | setThrottle _ _ :: rest => failsafed rest
  | failsafe e :: rest => e :: failsafed rest
  end.

Definition drive_escs : list esc_t := [esc_drive 0; esc_drive 1; esc_drive 2].
Definition weapon_escs : list esc_t := [esc_weapon 0; esc_weapon 1; esc_weapon 2].

(** ** Extremes of a sample stream, in the order of [float] comparison *)

Definition is_minimum (samples : list F32.t) (m : F32.t) : Prop :=
  In m samples /\ forall s, In s samples -> (s <? m)%f32 = false.

Definition is_maximum (samples : list F32.t) (m : F32.t) : Prop :=
  In m samples /\ forall s, In s samples -> (s >? m)%f32 = false.

(** ** Concrete data for evaluation *)

(** A receiver layout: two controllers of six channels each. *)
Definition bench_cfg : rc_config :=
  {| RC_NUMBER_CONTROLLERS := 2; RC_NUMBER_CHANNELS := 6;
     RC_0_THROTTLE := 2; RC_0_ELEVATION := 1; RC_0_RUDDER := 3;
     RC_0_AILERON := 0; RC_0_ARM_SWITCH := 4;
     RC_1_THROTTLE := 2; RC_1_ELEVATION := 1; RC_1_RUDDER := 3;
     RC_1_AILERON := 0; RC_1_ARM_SWITCH := 4;
     RC_SWITCH_MIDPOINT := f50 |}.

(** A math library that is exact at the three points used below:
    [atan2(0, y) = 0] for positive [y], [sin(0) = 0], [cos(0) = 1]. *)
Definition bench_libm : libm :=
  {| atan2 := fun _ _ => S754_zero false;
     sin := fun x => x;
     cos := fun _ => F64.of_Z 1 |}.

(** The shared record with every drive channel at the given values, the
    weapon channels at zero, and all wheel outputs at [w]. *)
Definition bench_args (st : state_t) (aileron elevation rudder w : F32.t)
  : thread_args_t :=
  {| state := st;
     controls := fun controller channel =>
       match controller, channel with
       | 1, 0 => aileron
       | 1, 1 => elevation
       | 1, 3 => rudder
       | _, _ => f0
       end;
     channel_limits := fun _ _ => limits_extremes;
     outputs := {| wheel_1 := w; wheel_2 := w; wheel_3 := w;
                   weapon_motor_1 := f0; weapon_motor_2 := f0;
                   weapon_motor_3 := f0 |} |}.

(** Two entries of the command table. *)
Definition cmd_partial_arm : command_t :=
  {| id := PARTIAL_ARM; name := "partial-arm"%string |}.
Definition cmd_partial_disarm : command_t :=
  {| id := PARTIAL_DISARM; name := "partial-disarm"%string |}.

(** The sample stream 1000, 1500, 1200, 1800. *)
Definition bench_stream : list F32.t :=
  [F32.of_Z 1000; F32.of_Z 1500; F32.of_Z 1200; F32.of_Z 1800].

(** ** More of tasks.cpp *)

(** *** [task_state_leds] *)

(** The task's own variables: the static [previous_state], [first_time] and
    the four-element array [weapon_only_ripple]. *)
Record led_locals_t : Type := {
  previous_state : state_t;
  first_time : bool;
  weapon_only_ripple : bool * bool * bool * bool
}.

(** Their values when the task starts; [previous_state] is initialised from
    the state found then. *)
Definition led_locals_init (args : thread_args_t) : led_locals_t :=
  {| previous_state := state args;
     first_time := true;
     weapon_only_ripple := (true, false, false, false) |}.

(** One pass: the variables afterwards and the calls [leds[i]->write(b)] made,
    in order.  The [memmove] shifts elements 0..2 to 1..3, then element 0
    takes the old element 3. *)
Definition task_state_leds (locals : led_locals_t) (args : thread_args_t)
  : led_locals_t * list (nat * bool) :=
  let on_change :=
    if negb (state_eqb (state args) (previous_state locals))
       || first_time locals
    then
      match state args with
      | STATE_DISARMED => [(0, false); (1, false); (2, false); (3, false)]
      | STATE_DRIVE_ONLY => [(0, true); (1, true); (2, false); (3, false)]
      | STATE_WEAPON_ONLY => []
      | STATE_FULLY_ARMED => [(0, true); (1, true); (2, true); (3, true)]
      end
    else [] in
  let '(r0, r1, r2, r3) := weapon_only_ripple locals in
  let '(strobe, ripple) :=
    match state args with
    | STATE_WEAPON_ONLY =>
        ([(0, r0); (1, r1); (2, r2); (3, r3)], (r3, r0, r1, r2))
    | _ => ([], (r0, r1, r2, r3))
    end in
  ({| previous_state := state args;
      first_time := false;
      weapon_only_ripple := ripple |},
   on_change ++ strobe).

(** The LED pins: a [write] sets one pin and leaves the others. *)
Definition led_write (leds : nat -> bool) (w : nat * bool) : nat -> bool :=
  fun i => if Nat.eqb i (fst w) then snd w else leds i.

Definition leds_after (leds : nat -> bool) (writes : list (nat * bool))
  : nat -> bool :=
  fold_left led_write writes leds.

(** Successive passes of the task; [passes] lists the shared record as each
    pass finds it. *)
Fixpoint led_run (locals : led_locals_t) (leds : nat -> bool)
    (passes : list thread_args_t) : led_locals_t * (nat -> bool) :=
  match passes with
  | [] => (locals, leds)
  | args :: rest =>
      let '(locals', writes) := task_state_leds locals args in
      led_run locals' (leds_after leds writes) rest
  end.

(** What the four LEDs show for a state: all off, the first two, all four;
    in the weapon-only state a single LED is lit. *)
Definition leds_show (st : state_t) (leds : nat -> bool) : bool :=
  match st with
  | STATE_DISARMED =>
      negb (leds 0) && negb (leds 1) && negb (leds 2) && negb (leds 3)
  | STATE_DRIVE_ONLY =>
      leds 0 && leds 1 && negb (leds 2) && negb (leds 3)
  | STATE_FULLY_ARMED => leds 0 && leds 1 && leds 2 && leds 3
  | STATE_WEAPON_ONLY =>
      Nat.eqb (List.length (filter (fun b : bool => b)
                                   [leds 0; leds 1; leds 2; leds 3])) 1
  end.

(** Exactly one element of the ripple array is set. *)
Definition ripple_one_lit (r : bool * bool * bool * bool) : bool :=
  let '(r0, r1, r2, r3) := r in
  Nat.eqb (List.length (filter (fun b : bool => b) [r0; r1; r2; r3])) 1.

(** *** Flags of the arming task *)

(** The flags the arming task computes from the controls. *)
Definition switch_on (cfg : rc_config) (args : thread_args_t) (axis : axis_t)
  : bool :=
  match axis with
  | Drive =>
      (controls args 1 (RC_1_ARM_SWITCH cfg) >? RC_SWITCH_MIDPOINT cfg)%f32
  | Weapon =>
      (controls args 0 (RC_0_ARM_SWITCH cfg) >? RC_SWITCH_MIDPOINT cfg)%f32
  end.

Definition sticks_at_rest (cfg : rc_config) (args : thread_args_t)
    (axis : axis_t) : bool :=
  match axis with
  | Drive =>
      BETWEEN (controls args 1 (RC_1_THROTTLE cfg)) 0 2 &&
      BETWEEN (controls args 1 (RC_1_ELEVATION cfg)) 45 55 &&
      BETWEEN (controls args 1 (RC_1_RUDDER cfg)) 45 55 &&
      BETWEEN (controls args 1 (RC_1_AILERON cfg)) 45 55
  | Weapon =>
      BETWEEN (controls args 0 (RC_0_THROTTLE cfg)) 0 2 &&
      BETWEEN (controls args 0 (RC_0_ELEVATION cfg)) 45 55 &&
      BETWEEN (controls args 0 (RC_0_RUDDER cfg)) 45 55 &&
      BETWEEN (controls args 0 (RC_0_AILERON cfg)) 45 55
  end.

Definition axis_live (axis : axis_t) (s : state_t) : bool :=
  match axis with
  | Drive => drive_live s
  | Weapon => weapon_live s
  end.

(** More concrete data. *)
Definition cmd_fully_arm : command_t :=
  {| id := FULLY_ARM; name := "fully-arm"%string |}.
Definition cmd_fully_disarm : command_t :=
  {| id := FULLY_DISARM; name := "fully-disarm"%string |}.
Definition cmd_status : command_t :=
  {| id := STATUS; name := "status"%string |}.

(** * Properties *)

(** ** The arming state machine *)

Lemma state_eqb_eq (a b : state_t) : state_eqb a b = true <-> a = b.
Proof. destruct a, b; simpl; split; congruence. Qed.

Lemma table_edge_spec (s s' : state_t) :
  table_edge s s' = true <-> exists r, table_next s r = s'.
Proof.
  unfold table_edge. rewrite existsb_exists. split.
  - intros [r [_ Hr]]. exists r. now apply state_eqb_eq.
  - intros [r Hr]. exists r. split.
    + destruct r as [ | [ | ] | [ | ] ]; simpl; tauto.
    + now apply state_eqb_eq.
Qed.

Lemma state_set_state (a : thread_args_t) (s : state_t) :
  state (set_state a s) = s.
Proof. reflexivity. Qed.

(** Breaks a goal about one pass of a state-writing operation into the
    finitely many cases of the current state and of the boolean inputs. *)
Ltac by_state_cases a :=
  let Hs := fresh "Hs" in
  destruct (state a) as [ | | | ] eqn:Hs;
  repeat match goal with
         | b : bool |- _ => destruct b
         end;
  cbn; rewrite ?Hs; cbn.

(** The state after an arming pass, in terms of the switch and stick flags
    of the two controllers. *)
Lemma task_arming_state (cfg : rc_config) (d w : bool) (args : thread_args_t) :
  state (task_arming cfg d w args)
  = arming_switch
      (switch_on cfg args Drive) (switch_on cfg args Weapon)
      (switch_on cfg args Drive && negb d && sticks_at_rest cfg args Drive)
      (switch_on cfg args Weapon && negb w && sticks_at_rest cfg args Weapon)
      (state args).
Proof.
  unfold task_arming. rewrite state_set_state.
  unfold switch_on, sticks_at_rest.
  f_equal; rewrite <- !andb_assoc; reflexivity.
Qed.

(** C1, as the code has it.  Every pass of the failsafe task leaves the state
    alone or follows a cell of the table.  A pass of the arming task does the
    same, or goes from disarmed to fully armed in one step, and then both
    arm gestures hold in that pass: for each controller the switch is on, the
    transmitter is not stalled and the sticks are at rest.  A command does
    the same, or is one of: partial-arm from drive-only to weapon-only,
    partial-disarm from weapon-only to drive-only, fully-arm from disarmed
    to fully armed. *)
Theorem arming_state_writers_follow_table_or_listed_jumps :
  (forall drive_inactive weapon_inactive args,
      let s := state args in
      let s' := state (task_failsafe drive_inactive weapon_inactive args) in
      s' = s \/ table_edge s s' = true)
  /\
  (forall cfg drive_stalled weapon_stalled args,
      let s := state args in
      let s' := state (task_arming cfg drive_stalled weapon_stalled args) in
      s' = s \/ table_edge s s' = true \/
      (s = STATE_DISARMED /\ s' = STATE_FULLY_ARMED /\
       (switch_on cfg args Drive = true /\ drive_stalled = false /\
        sticks_at_rest cfg args Drive = true) /\
       (switch_on cfg args Weapon = true /\ weapon_stalled = false /\
        sticks_at_rest cfg args Weapon = true)))
  /\
  (forall command args,
      let s := state args in
      let s' := state (fst (command_execute command args)) in
      s' = s \/ table_edge s s' = true \/
      (id command = PARTIAL_ARM /\
       s = STATE_DRIVE_ONLY /\ s' = STATE_WEAPON_ONLY) \/
      (id command = PARTIAL_DISARM /\
       s = STATE_WEAPON_ONLY /\ s' = STATE_DRIVE_ONLY) \/
      (id command = FULLY_ARM /\
       s = STATE_DISARMED /\ s' = STATE_FULLY_ARMED)).
Proof.
  split; [ | split ].
  - intros d w args. unfold task_failsafe.
    by_state_cases args; auto.
  - intros cfg d w args. cbn zeta. rewrite task_arming_state.
    generalize (sticks_at_rest cfg args Drive)
               (sticks_at_rest cfg args Weapon).
    intros rd rw.
    destruct (switch_on cfg args Drive), (switch_on cfg args Weapon),
             (state args), d, w, rd, rw; cbn;
      first [ left; reflexivity
            | right; left; reflexivity
            | right; right; repeat split; reflexivity ].
  - intros [c nm] [s ctl lim o]. unfold command_execute. cbn [id].
    destruct c; cbn;
      unfold command_fully_disarm, command_partial_disarm,
             command_partial_arm, command_fully_arm, command_status;
      destruct s; cbn; auto 10.
Qed.

(** C1 as stated fails: the partial-disarm command takes the state from
    weapon-only to drive-only, and no cell of the weapon-only row of the table
    names drive-only. *)
Lemma partial_disarm_leaves_the_table :
  let args := bench_args STATE_WEAPON_ONLY f50 f50 f50 f50 in
  let s' := state (fst (command_partial_disarm cmd_partial_disarm args)) in
  s' = STATE_DRIVE_ONLY /\
  s' <> state args /\
  table_edge (state args) s' = false.
Proof. cbn. repeat split. discriminate. Qed.

(** C2.  A pass of the failsafe task, whatever the state and the two stall
    flags, leaves the arming state unchanged or moves it strictly down in the
    arming level; it never produces the state a Promote request would lead
    to, unless that request is a no-op. *)
Theorem task_failsafe_never_raises_level :
  forall drive_inactive weapon_inactive args,
    let s := state args in
    let s' := state (task_failsafe drive_inactive weapon_inactive args) in
    (s' = s \/ level_lt s' s = true) /\
    level_le s' s = true /\
    (forall axis, table_next s (Promote axis) <> s ->
                  s' <> table_next s (Promote axis)).
Proof.
  intros d w args. unfold task_failsafe.
  destruct (state args) eqn:Hs; destruct d, w; cbn; rewrite ?Hs;
    (split; [ auto | split; [ reflexivity | ] ]);
    intros [ | ]; cbn; congruence.
Qed.

Lemma task_failsafe_never_raises_level_witness :
  let a := bench_args STATE_DRIVE_ONLY f50 f50 f50 f50 in
  table_next (state a) (Promote Weapon) <> state a /\
  state (task_failsafe false true a) <> table_next (state a) (Promote Weapon).
Proof.
  cbn zeta. split; [ discriminate | ].
  apply (proj2 (proj2
    (task_failsafe_never_raises_level false true
       (bench_args STATE_DRIVE_ONLY f50 f50 f50 f50)))).
  discriminate.
Defined.

(** C7.  From fully armed, with the drive receiver stalled and the weapon
    receiver alive, a pass of the failsafe task sets weapon-only: not
    disarmed, not drive-only. *)
Theorem task_failsafe_drive_stalled_from_fully_armed :
  forall args,
    state args = STATE_FULLY_ARMED ->
    let s' := state (task_failsafe true false args) in
    s' = STATE_WEAPON_ONLY /\ s' <> STATE_DISARMED /\ s' <> STATE_DRIVE_ONLY.
Proof.
  intros args H. unfold task_failsafe. rewrite H. cbn.
  repeat split; discriminate.
Qed.

Lemma task_failsafe_drive_stalled_from_fully_armed_witness :
  state (bench_args STATE_FULLY_ARMED f50 f50 f50 f50) = STATE_FULLY_ARMED /\
  state (task_failsafe true false
           (bench_args STATE_FULLY_ARMED f50 f50 f50 f50)) = STATE_WEAPON_ONLY.
Proof.
  split; [ reflexivity | ].
  apply (task_failsafe_drive_stalled_from_fully_armed
           (bench_args STATE_FULLY_ARMED f50 f50 f50 f50)).
  reflexivity.
Defined.

(** C6.  Four partial-arm commands from disarmed: drive-only, weapon-only,
    fully armed, each with RET_OK; the fourth returns RET_ALREADY_ARMED and
    leaves the record as it was. *)
Theorem partial_arm_four_times :
  forall c1 c2 c3 c4 args,
    state args = STATE_DISARMED ->
    let r1 := command_partial_arm c1 args in
    let r2 := command_partial_arm c2 (fst r1) in
    let r3 := command_partial_arm c3 (fst r2) in
    let r4 := command_partial_arm c4 (fst r3) in
    (state (fst r1) = STATE_DRIVE_ONLY /\ snd r1 = RET_OK) /\
    (state (fst r2) = STATE_WEAPON_ONLY /\ snd r2 = RET_OK) /\
    (state (fst r3) = STATE_FULLY_ARMED /\ snd r3 = RET_OK) /\
    (snd r4 = RET_ALREADY_ARMED /\ fst r4 = fst r3).
Proof.
  intros c1 c2 c3 c4 args H. unfold command_partial_arm.
  rewrite H. cbn. repeat split.
Qed.

Lemma partial_arm_four_times_witness :
  let c := cmd_partial_arm in
  let a0 := bench_args STATE_DISARMED f50 f50 f50 f50 in
  let a3 := fst (command_partial_arm c (fst (command_partial_arm c
                  (fst (command_partial_arm c a0))))) in
  state a0 = STATE_DISARMED /\
  snd (command_partial_arm c a3) = RET_ALREADY_ARMED /\
  fst (command_partial_arm c a3) = a3.
Proof.
  cbn zeta. split; [ reflexivity | ].
  exact (proj2 (proj2 (proj2
    (partial_arm_four_times
       cmd_partial_arm cmd_partial_arm
       cmd_partial_arm cmd_partial_arm
       (bench_args STATE_DISARMED f50 f50 f50 f50) eq_refl)))).
Defined.

(** C10.  From any state but fully armed, partial-arm followed by
    partial-disarm gives back the record it started from, state included. *)
Theorem partial_disarm_after_partial_arm :
  forall c1 c2 args,
    state args <> STATE_FULLY_ARMED ->
    snd (command_partial_arm c1 args) = RET_OK /\
    fst (command_partial_disarm c2 (fst (command_partial_arm c1 args))) = args.
Proof.
  intros c1 c2 args H. unfold command_partial_arm, command_partial_disarm.
  destruct args as [s c l o]. cbn in *.
  destruct s; cbn; try (split; reflexivity). congruence.
Qed.

Lemma partial_disarm_after_partial_arm_witness :
  let c := cmd_partial_arm in
  let d := cmd_partial_disarm in
  let a := bench_args STATE_DRIVE_ONLY f50 f50 f50 f50 in
  state a <> STATE_FULLY_ARMED /\
  state (fst (command_partial_arm c a)) = STATE_WEAPON_ONLY /\
  fst (command_partial_disarm d (fst (command_partial_arm c a))) = a.
Proof.
  cbn zeta. split; [ discriminate | split; [ reflexivity | ] ].
  apply (partial_disarm_after_partial_arm
           cmd_partial_arm cmd_partial_disarm
           (bench_args STATE_DRIVE_ONLY f50 f50 f50 f50)).
  discriminate.
Defined.

(** ** Actuator dispatch *)

(** C4.  In one pass of [task_set_escs]: disarmed, the six ESCs get
    [failsafe] and none gets [setThrottle]; drive-only, exactly the three
    drive ESCs get [setThrottle]; weapon-only, exactly the three weapon ESCs;
    fully armed, all six.  Outside the disarmed state no [failsafe] is
    called, and the throttles sent are the outputs computed in this pass. *)
Theorem task_set_escs_calls_gated_by_state :
  forall cfg m args,
    let args' := fst (task_set_escs cfg m args) in
    let calls := snd (task_set_escs cfg m args) in
    let o := outputs args' in
    match state args with
    | STATE_DISARMED =>
        failsafed calls = drive_escs ++ weapon_escs /\
        throttled calls = [] /\
        length calls = 6
    | STATE_DRIVE_ONLY =>
        throttled calls = drive_escs /\
        failsafed calls = [] /\
        calls = [ setThrottle (esc_drive 0) (wheel_1 o);
                  setThrottle (esc_drive 1) (wheel_2 o);
                  setThrottle (esc_drive 2) (wheel_3 o) ]
    | STATE_WEAPON_ONLY =>
        throttled calls = weapon_escs /\
        failsafed calls = [] /\
        calls = [ setThrottle (esc_weapon 0) (weapon_motor_1 o);
                  setThrottle (esc_weapon 1) (weapon_motor_2 o);
                  setThrottle (esc_weapon 2) (weapon_motor_3 o) ]
    | STATE_FULLY_ARMED =>
        throttled calls = weapon_escs ++ drive_escs /\
        failsafed calls = [] /\
        calls = [ setThrottle (esc_weapon 0) (weapon_motor_1 o);
                  setThrottle (esc_weapon 1) (weapon_motor_2 o);
                  setThrottle (esc_weapon 2) (weapon_motor_3 o);
                  setThrottle (esc_drive 0) (wheel_1 o);
                  setThrottle (esc_drive 1) (wheel_2 o);
                  setThrottle (esc_drive 2) (wheel_3 o) ]
    end.
Proof.
  intros cfg m [s ctl lim o].
  cbv [task_set_escs set_outputs state outputs fst snd].
  destruct s; cbv [dispatch_escs throttled failsafed drive_escs weapon_escs
                   app length]; repeat split.
Qed.

(** ** The drive mixer *)

(** C9.  With aileron, elevation and rudder of the drive controller all at
    50, the magnitude is zero, the deadzone branch is taken, and the pass
    leaves the three wheel outputs at exactly 50, whatever they held before
    and whatever the math library returns. *)
Theorem centred_sticks_give_neutral_wheels :
  forall cfg m args,
    controls args 1 (RC_1_AILERON cfg) = f50 ->
    controls args 1 (RC_1_ELEVATION cfg) = f50 ->
    controls args 1 (RC_1_RUDDER cfg) = f50 ->
    let x := (controls args 1 (RC_1_AILERON cfg) - f50)%f32 in
    let y := (controls args 1 (RC_1_ELEVATION cfg) - f50)%f32 in
    let o := outputs (fst (task_set_escs cfg m args)) in
    stick_magnitude x y = f0 /\
    (stick_magnitude x y >? f5)%f32 = false /\
    wheel_1 o = f50 /\ wheel_2 o = f50 /\ wheel_3 o = f50.
Proof.
  intros cfg m args Ha He Hr.
  cbv [task_set_escs fst set_outputs outputs calculate_outputs].
  rewrite Ha, He, Hr.
  repeat split; vm_compute; reflexivity.
Qed.

Lemma centred_sticks_give_neutral_wheels_witness :
  let a := bench_args STATE_DRIVE_ONLY f50 f50 f50 f100 in
  controls a 1 (RC_1_AILERON bench_cfg) = f50 /\
  controls a 1 (RC_1_ELEVATION bench_cfg) = f50 /\
  controls a 1 (RC_1_RUDDER bench_cfg) = f50 /\
  wheel_1 (outputs (fst (task_set_escs bench_cfg bench_libm a))) = f50 /\
  wheel_2 (outputs (fst (task_set_escs bench_cfg bench_libm a))) = f50 /\
  wheel_3 (outputs (fst (task_set_escs bench_cfg bench_libm a))) = f50.
Proof.
  cbn zeta. do 3 (split; [ reflexivity | ]).
  exact (proj2 (proj2
    (centred_sticks_give_neutral_wheels bench_cfg bench_libm
       (bench_args STATE_DRIVE_ONLY f50 f50 f50 f100)
       eq_refl eq_refl eq_refl))).
Defined.

(** With the stick pushed straight ahead (aileron 50, elevation 100) and the
    rudder centred, the first wheel's contribution is zero, and the pass
    ends with the value the field held when the pass began, clamped. *)
Lemma calculate_outputs_wheel_1_straight_ahead :
  forall cfg m args,
    atan2 m (S754_zero false) (F64.of_Z 50) = S754_zero false ->
    sin m (S754_zero false) = S754_zero false ->
    controls args 1 (RC_1_AILERON cfg) = f50 ->
    controls args 1 (RC_1_ELEVATION cfg) = f100 ->
    controls args 1 (RC_1_RUDDER cfg) = f50 ->
    wheel_1 (calculate_outputs cfg m args)
    = clamp (wheel_1 (outputs args) + f0 + f0)%f32 f0 f100.
Proof.
  intros cfg m args Hat Hsin Ha He Hr.
  unfold calculate_outputs. rewrite Ha, He, Hr. cbv zeta.
  replace (f50 - f50)%f32 with (S754_zero false) by (vm_compute; reflexivity).
  replace (to_double (S754_zero false)) with (S754_zero false) by reflexivity.
  replace (to_double (f100 - f50)%f32) with (F64.of_Z 50)
    by (vm_compute; reflexivity).
  rewrite Hat.
  replace (to_float (S754_zero false)) with (S754_zero false) by reflexivity.
  replace (to_double (S754_zero false)) with (S754_zero false) by reflexivity.
  rewrite Hsin.
  replace (stick_magnitude (S754_zero false) (f100 - f50)%f32) with f50
    by (vm_compute; reflexivity).
  replace (f50 >? f5)%f32 with true by (vm_compute; reflexivity).
  cbv [wheel_1].
  replace (map (F32.neg (to_float (F64.mul (to_double f50) (S754_zero false))))
               (F32.neg f70) f70 f0 f100 - f50)%f32
    with f0 by (vm_compute; reflexivity).
  reflexivity.
Qed.

(** C5 fails on the code.  Two passes of the mixer with the same channel
    values (aileron 50, elevation 100, rudder 50: magnitude 50, outside the
    deadzone) but different wheel outputs left by the previous pass (0 and
    100) end with different wheel outputs (0 and 100): in the branch
    [magnitude > 5.0f] the fields are updated with [+=] and are not reset
    first, so the previous pass's result is read back.  The math library is
    only assumed exact at zero. *)
Theorem mixer_output_depends_on_previous_output :
  forall cfg m a1 a2,
    atan2 m (S754_zero false) (F64.of_Z 50) = S754_zero false ->
    sin m (S754_zero false) = S754_zero false ->
    (forall controller channel,
        controls a2 controller channel = controls a1 controller channel) ->
    controls a1 1 (RC_1_AILERON cfg) = f50 ->
    controls a1 1 (RC_1_ELEVATION cfg) = f100 ->
    controls a1 1 (RC_1_RUDDER cfg) = f50 ->
    wheel_1 (outputs a1) = f0 ->
    wheel_1 (outputs a2) = f100 ->
    wheel_1 (outputs (fst (task_set_escs cfg m a1))) = f0 /\
    wheel_1 (outputs (fst (task_set_escs cfg m a2))) = f100 /\
    wheel_1 (outputs (fst (task_set_escs cfg m a1)))
      <> wheel_1 (outputs (fst (task_set_escs cfg m a2))).
Proof.
  intros cfg m a1 a2 Hat Hsin Hsame Ha He Hr Hw1 Hw2.
  cbv [task_set_escs fst set_outputs outputs].
  fold (outputs a1). fold (outputs a2).
  rewrite (calculate_outputs_wheel_1_straight_ahead cfg m a1 Hat Hsin Ha He Hr).
  rewrite (calculate_outputs_wheel_1_straight_ahead cfg m a2 Hat Hsin);
    try (rewrite Hsame; assumption).
  rewrite Hw1, Hw2.
  repeat split; try (vm_compute; reflexivity).
  vm_compute. discriminate.
Qed.

Lemma mixer_output_depends_on_previous_output_witness :
  let a1 := bench_args STATE_DRIVE_ONLY f50 f100 f50 f0 in
  let a2 := bench_args STATE_DRIVE_ONLY f50 f100 f50 f100 in
  atan2 bench_libm (S754_zero false) (F64.of_Z 50) = S754_zero false /\
  sin bench_libm (S754_zero false) = S754_zero false /\
  (forall controller channel,
      controls a2 controller channel = controls a1 controller channel) /\
  controls a1 1 (RC_1_AILERON bench_cfg) = f50 /\
  controls a1 1 (RC_1_ELEVATION bench_cfg) = f100 /\
  controls a1 1 (RC_1_RUDDER bench_cfg) = f50 /\
  wheel_1 (outputs a1) = f0 /\
  wheel_1 (outputs a2) = f100 /\
  wheel_1 (outputs (fst (task_set_escs bench_cfg bench_libm a1)))
    <> wheel_1 (outputs (fst (task_set_escs bench_cfg bench_libm a2))).
Proof.
  cbn zeta. do 2 (split; [ reflexivity | ]).
  split; [ reflexivity | ]. do 5 (split; [ reflexivity | ]).
  exact (proj2 (proj2
    (mixer_output_depends_on_previous_output bench_cfg bench_libm
       (bench_args STATE_DRIVE_ONLY f50 f100 f50 f0)
       (bench_args STATE_DRIVE_ONLY f50 f100 f50 f100)
       eq_refl eq_refl (fun _ _ => eq_refl)
       eq_refl eq_refl eq_refl eq_refl eq_refl))).
Defined.

(** The two previous outputs above are ones the mixer itself leaves behind:
    a pass with centred sticks and the rudder at 0 or at 100.  After such a
    pass, the same second pass gives different results. *)
Lemma two_passes_same_second_input :
  let pass a := fst (task_set_escs bench_cfg bench_libm a) in
  let second := controls (bench_args STATE_DRIVE_ONLY f50 f100 f50 f50) in
  let run rudder_before :=
    pass (set_controls
            (pass (bench_args STATE_DRIVE_ONLY f50 f50 rudder_before f50))
            second) in
  wheel_1 (outputs (run f0)) = f0 /\ wheel_1 (outputs (run f100)) = f100.
Proof. vm_compute. split; reflexivity. Qed.

(** ** Order facts about [float] comparison *)

Ltac compare_cases :=
  repeat match goal with
         | H : context [Pos.compare_cont Eq ?a ?b] |- _ =>
             change (Pos.compare_cont Eq a b) with (Pos.compare a b) in H
         | |- context [Pos.compare_cont Eq ?a ?b] =>
             change (Pos.compare_cont Eq a b) with (Pos.compare a b)
         end;
  repeat match goal with
         | H : context [Z.compare ?a ?b] |- _ =>
             destruct (Z.compare_spec a b); cbn in H
         | |- context [Z.compare ?a ?b] =>
             destruct (Z.compare_spec a b); cbn
         | H : context [Pos.compare ?a ?b] |- _ =>
             destruct (Pos.compare_spec a b); cbn in H
         | |- context [Pos.compare ?a ?b] =>
             destruct (Pos.compare_spec a b); cbn
         end;
  subst; try discriminate; try reflexivity; try lia.

Lemma SFltb_irrefl (a : spec_float) : SFltb a a = false.
Proof.
  unfold SFltb. destruct a as [ [ | ] | [ | ] | | [ | ] m e ]; cbn;
    try reflexivity; compare_cases.
Qed.

Lemma SFltb_trans (a b c : spec_float) :
  SFltb a b = true -> SFltb b c = true -> SFltb a c = true.
Proof.
  unfold SFltb.
  destruct a as [ [ | ] | [ | ] | | [ | ] ma ea ];
    destruct b as [ [ | ] | [ | ] | | [ | ] mb eb ];
    destruct c as [ [ | ] | [ | ] | | [ | ] mc ec ];
    cbn; intros Hab Hbc; try discriminate; try reflexivity; compare_cases.
Qed.

Lemma SFltb_asym (a b : spec_float) :
  SFltb a b = true -> SFltb b a = false.
Proof.
  unfold SFltb.
  destruct a as [ [ | ] | [ | ] | | [ | ] ma ea ];
    destruct b as [ [ | ] | [ | ] | | [ | ] mb eb ];
    cbn; intros Hab; try discriminate; try reflexivity; compare_cases.
Qed.

(** Two numbers neither of which is below the other. *)
Lemma SFleb_of_not_gt (a b x y : spec_float) :
  SFltb a x = true -> SFltb y b = true ->
  SFltb b a = false -> SFleb a b = true.
Proof.
  unfold SFltb, SFleb.
  destruct a as [ [ | ] | [ | ] | | [ | ] ma ea ];
    destruct b as [ [ | ] | [ | ] | | [ | ] mb eb ];
    cbn; intros Hax Hyb Hba; try discriminate; try reflexivity;
    try (destruct x; discriminate); try (destruct y as [ | | | [ | ] ? ? ]; discriminate);
    compare_cases.
Qed.

(** ** Normalisation *)

Lemma sub_self (m : F32.t) :
  (m - m)%f32 = S754_zero false \/ (m - m)%f32 = S754_nan.
Proof.
  destruct m as [ [ | ] | [ | ] | | s mm e ]; try (cbn; auto; fail).
  left. unfold F32.sub, SFsub. rewrite Z.sub_diag. reflexivity.
Qed.

(** When [pw] is neither below nor above [m], their difference is a zero or
    is not a number. *)
Lemma sub_of_unordered_or_equal (pw m : F32.t) :
  (pw <? m)%f32 = false -> (pw >? m)%f32 = false ->
  (exists s, (pw - m)%f32 = S754_zero s) \/ (pw - m)%f32 = S754_nan.
Proof.
  unfold F32.ltb, F32.gtb, SFltb.
  destruct pw as [ [ | ] | [ | ] | | [ | ] mp ep ];
    destruct m as [ [ | ] | [ | ] | | [ | ] mm em ];
    intros H1 H2; cbn in H1, H2; try discriminate;
    try (cbn; eauto; fail);
    compare_cases;
    left; exists false; unfold F32.sub, SFsub; rewrite Z.sub_diag; reflexivity.
Qed.

Lemma div_zero_by_zero (n d : F32.t) :
  (exists s, n = S754_zero s) \/ n = S754_nan ->
  d = S754_zero false \/ d = S754_nan ->
  (n / d)%f32 = S754_nan.
Proof.
  intros [ [s ->] | -> ] [ -> | -> ]; reflexivity.
Qed.

(** Whatever value the clamp hands on, rescaling between two equal limits
    gives a NaN or an infinity, never a value within 0..100. *)
Lemma rescale_equal_limits (x m : F32.t) :
  let v := ((x - m) / (m - m) * f100)%f32 in
  F32.leb f0 v && F32.leb v f100 = false.
Proof.
  cbn zeta. generalize (x - m)%f32. intros n.
  destruct (sub_self m) as [-> | ->];
    destruct n as [ [ | ] | [ | ] | | [ | ] mn en ]; reflexivity.
Qed.

(** C3 fails on the code in the degenerate case.  When the two limits are
    equal, whatever they are and whatever the raw pulse width is, the
    normalised value is not a number: [max - min] is zero, the clamped pulse
    width minus [min] is zero as well, and the quotient of two zeros is NaN.
    The result is therefore neither 50 nor within 0..100. *)
Theorem normalize_degenerate_limits :
  forall pw m,
    let v := normalize pw {| min := m; max := m |} in
    v = S754_nan /\ v <> f50 /\ F32.leb f0 v = false /\ F32.leb v f100 = false.
Proof.
  intros pw m.
  assert (H : normalize pw {| min := m; max := m |} = S754_nan).
  { unfold normalize. cbv [min max]. cbv zeta.
    assert (Hn : (exists s, (clamp pw m m - m)%f32 = S754_zero s)
                 \/ (clamp pw m m - m)%f32 = S754_nan).
    { unfold clamp.
      destruct (pw <? m)%f32 eqn:Hlt.
      - destruct (sub_self m) as [-> | ->]; eauto.
      - destruct (pw >? m)%f32 eqn:Hgt.
        + destruct (sub_self m) as [-> | ->]; eauto.
        + now apply sub_of_unordered_or_equal. }
    rewrite (div_zero_by_zero Hn (sub_self m)). reflexivity. }
  cbv zeta. rewrite H. repeat split. discriminate.
Qed.

Example normalize_mid_range :
  normalize (F32.of_Z 1500) {| min := F32.of_Z 1000; max := F32.of_Z 2000 |}
  = f50.
Proof. vm_compute. reflexivity. Qed.

Example normalize_equal_limits_1500 :
  normalize (F32.of_Z 1500) {| min := F32.of_Z 1500; max := F32.of_Z 1500 |}
  = S754_nan.
Proof. vm_compute. reflexivity. Qed.

(** ** Calibration *)

Lemma min_calibrate_sample (l : channel_limits_t) (tmp : F32.t) :
  min (calibrate_sample l tmp) = if (tmp <? min l)%f32 then tmp else min l.
Proof.
  unfold calibrate_sample.
  destruct (tmp <? min l)%f32; cbn [min max];
    destruct (tmp >? max l)%f32; reflexivity.
Qed.

Lemma max_calibrate_sample (l : channel_limits_t) (tmp : F32.t) :
  max (calibrate_sample l tmp) = if (tmp >? max l)%f32 then tmp else max l.
Proof.
  unfold calibrate_sample.
  destruct (tmp <? min l)%f32; cbn [min max];
    destruct (tmp >? max l)%f32; reflexivity.
Qed.

(** The running minimum either is still the starting value or is a sample
    below it, and no sample seen is below the running minimum. *)
Lemma running_min (samples : list F32.t) :
  forall l,
    let r := fold_left calibrate_sample samples l in
    (min r = min l \/ (In (min r) samples /\ (min r <? min l)%f32 = true)) /\
    (forall s, In s samples -> (s <? min r)%f32 = false).
Proof.
  induction samples as [ | tmp rest IH ]; intros l; cbn zeta.
  - cbn. split; [ auto | intros s [] ].
  - cbn [fold_left].
    destruct (IH (calibrate_sample l tmp)) as [HA HB]. cbn zeta in HA, HB.
    rewrite min_calibrate_sample in HA.
    set (r := fold_left calibrate_sample rest (calibrate_sample l tmp)) in *.
    destruct (tmp <? min l)%f32 eqn:Hlt.
    + split.
      * right. destruct HA as [-> | [Hin Hlt']].
        -- split; [ now left | assumption ].
        -- split; [ now right | ].
           unfold F32.ltb in *. eapply SFltb_trans; eassumption.
      * intros s [<- | Hs]; [ | now apply HB ].
        destruct HA as [-> | [_ Hlt']].
        -- apply SFltb_irrefl.
        -- unfold F32.ltb in *. now apply SFltb_asym.
    + split.
      * destruct HA as [-> | [Hin Hlt']]; [ now left | right ].
        split; [ now right | assumption ].
      * intros s [<- | Hs]; [ | now apply HB ].
        destruct HA as [-> | [_ Hlt']]; [ assumption | ].
        unfold F32.ltb in *.
        destruct (SFltb tmp (min r)) eqn:Hcmp; [ | reflexivity ].
        rewrite (SFltb_trans _ _ _ Hcmp Hlt') in Hlt. discriminate.
Qed.

Lemma running_max (samples : list F32.t) :
  forall l,
    let r := fold_left calibrate_sample samples l in
    (max r = max l \/ (In (max r) samples /\ (max r >? max l)%f32 = true)) /\
    (forall s, In s samples -> (s >? max r)%f32 = false).
Proof.
  induction samples as [ | tmp rest IH ]; intros l; cbn zeta.
  - cbn. split; [ auto | intros s [] ].
  - cbn [fold_left].
    destruct (IH (calibrate_sample l tmp)) as [HA HB]. cbn zeta in HA, HB.
    rewrite max_calibrate_sample in HA.
    set (r := fold_left calibrate_sample rest (calibrate_sample l tmp)) in *.
    destruct (tmp >? max l)%f32 eqn:Hgt.
    + split.
      * right. destruct HA as [-> | [Hin Hgt']].
        -- split; [ now left | assumption ].
        -- split; [ now right | ].
           unfold F32.gtb in *. eapply SFltb_trans; eassumption.
      * intros s [<- | Hs]; [ | now apply HB ].
        destruct HA as [-> | [_ Hgt']].
        -- apply SFltb_irrefl.
        -- unfold F32.gtb in *. now apply SFltb_asym.
    + split.
      * destruct HA as [-> | [Hin Hgt']]; [ now left | right ].
        split; [ now right | assumption ].
      * intros s [<- | Hs]; [ | now apply HB ].
        destruct HA as [-> | [_ Hgt']]; [ assumption | ].
        unfold F32.gtb in *.
        destruct (SFltb (max r) tmp) eqn:Hcmp; [ | reflexivity ].
        rewrite (SFltb_trans _ _ _ Hgt' Hcmp) in Hgt. discriminate.
Qed.

(** C8, as the code has it.  The limits start at the pair (10000, -10000).
    For every stream of samples that has a sample below 10000 and a sample
    above -10000, the resulting [min] is a sample of the stream that no sample
    is below, the resulting [max] is a sample that no sample is above, and
    [min <= max].  The stream 1000, 1500, 1200, 1800 yields min 1000 and
    max 1800. *)
Theorem calibrate_channel_extremes :
  calibrate_channel bench_stream
    = {| min := F32.of_Z 1000; max := F32.of_Z 1800 |} /\
  forall samples,
    (exists s, In s samples /\ (s <? f10000)%f32 = true) ->
    (exists s, In s samples /\ (s >? F32.of_Z (-10000))%f32 = true) ->
    let l := calibrate_channel samples in
    is_minimum samples (min l) /\
    is_maximum samples (max l) /\
    F32.leb (min l) (max l) = true.
Proof.
  split; [ vm_compute; reflexivity | ].
  intros samples [lo [Hlo Hlo']] [hi [Hhi Hhi']]. cbn zeta.
  unfold calibrate_channel.
  destruct (running_min samples limits_extremes) as [HminA HminB].
  destruct (running_max samples limits_extremes) as [HmaxA HmaxB].
  cbn zeta in *.
  set (r := fold_left calibrate_sample samples limits_extremes) in *.
  change (min limits_extremes) with f10000 in HminA.
  change (max limits_extremes) with (F32.of_Z (-10000)) in HmaxA.
  assert (Hmin : In (min r) samples /\ (min r <? f10000)%f32 = true).
  { destruct HminA as [Heq | H]; [ | exact H ].
    specialize (HminB lo Hlo). rewrite Heq in HminB. congruence. }
  assert (Hmax : In (max r) samples /\ (max r >? F32.of_Z (-10000))%f32 = true).
  { destruct HmaxA as [Heq | H]; [ | exact H ].
    specialize (HmaxB hi Hhi). rewrite Heq in HmaxB. congruence. }
  split; [ | split ].
  - split; [ apply Hmin | exact HminB ].
  - split; [ apply Hmax | exact HmaxB ].
  - apply SFleb_of_not_gt with (x := f10000) (y := F32.of_Z (-10000)).
    + apply Hmin.
    + apply Hmax.
    + apply (HmaxB (min r)). apply Hmin.
Qed.

Lemma calibrate_channel_extremes_witness :
  (exists s, In s bench_stream /\ (s <? f10000)%f32 = true) /\
  (exists s, In s bench_stream /\ (s >? F32.of_Z (-10000))%f32 = true) /\
  is_minimum bench_stream (min (calibrate_channel bench_stream)) /\
  is_maximum bench_stream (max (calibrate_channel bench_stream)) /\
  F32.leb (min (calibrate_channel bench_stream))
          (max (calibrate_channel bench_stream)) = true.
Proof.
  assert (Hlo : exists s, In s bench_stream /\ (s <? f10000)%f32 = true).
  { exists (F32.of_Z 1000). split; [ left; reflexivity | reflexivity ]. }
  assert (Hhi : exists s,
             In s bench_stream /\ (s >? F32.of_Z (-10000))%f32 = true).
  { exists (F32.of_Z 1000). split; [ left; reflexivity | reflexivity ]. }
  split; [ exact Hlo | ]. split; [ exact Hhi | ].
  exact (proj2 calibrate_channel_extremes bench_stream Hlo Hhi).
Defined.

(** C8 as stated fails: a stream whose only sample is 20000 is not below the
    starting [min] of 10000, so [min] stays 10000, which is not a sample of
    the stream. *)
Lemma calibrate_channel_sample_beyond_extreme :
  let samples := [F32.of_Z 20000] in
  samples <> [] /\
  calibrate_channel samples = {| min := f10000; max := F32.of_Z 20000 |} /\
  ~ is_minimum samples (min (calibrate_channel samples)).
Proof.
  cbn zeta. split; [ discriminate | ]. split; [ vm_compute; reflexivity | ].
  intros [Hin _]. destruct Hin as [H | []].
  vm_compute in H. discriminate.
Qed.

(** *** The task's loops, channel by channel *)

Section OneCell.
(** A loop nest whose body rewrites cell [(i, j)] of [channel_limits] from
    that cell's old value. *)
Variable g : nat -> nat -> channel_limits_t -> channel_limits_t.

Let body (i j : nat) (a : thread_args_t) : thread_args_t :=
  set_channel_limits a
    (upd2 (channel_limits a) i j (g i j (channel_limits a i j))).

Variables c ch : nat.

Lemma inner_loop_cell (js : list nat) :
  NoDup js ->
  forall i a,
    channel_limits (fold_left (fun s j => body i j s) js a) c ch
    = if Nat.eqb c i && existsb (Nat.eqb ch) js
      then g c ch (channel_limits a c ch)
      else channel_limits a c ch.
Proof.
  induction 1 as [ | j js Hj Hnd IH ]; intros i a.
  - cbn. rewrite andb_false_r. reflexivity.
  - cbn [fold_left existsb]. rewrite IH.
    unfold body. cbn [channel_limits set_channel_limits]. unfold upd2.
    destruct (Nat.eqb c i) eqn:Hc; cbn [andb]; [ | reflexivity ].
    destruct (Nat.eqb ch j) eqn:Hch; cbn [orb]; [ | reflexivity ].
    apply Nat.eqb_eq in Hc, Hch. subst i j.
    destruct (existsb (Nat.eqb ch) js) eqn:Hex; [ | reflexivity ].
    apply existsb_exists in Hex. destruct Hex as [x [Hx Hxe]].
    apply Nat.eqb_eq in Hxe. subst x. contradiction.
Qed.

Lemma outer_loop_cell (js : list nat) (Hjs : NoDup js) (ks : list nat) :
  NoDup ks ->
  forall a,
    channel_limits
      (fold_left (fun s i => fold_left (fun s j => body i j s) js s) ks a)
      c ch
    = if existsb (Nat.eqb c) ks && existsb (Nat.eqb ch) js
      then g c ch (channel_limits a c ch)
      else channel_limits a c ch.
Proof.
  induction 1 as [ | i ks Hi Hnd IH ]; intros a.
  - reflexivity.
  - cbn [fold_left existsb]. rewrite IH, (inner_loop_cell Hjs).
    destruct (Nat.eqb c i) eqn:Hc; cbn [andb orb]; [ | reflexivity ].
    apply Nat.eqb_eq in Hc. subst i.
    destruct (existsb (Nat.eqb ch) js); [ | now rewrite andb_false_r ].
    destruct (existsb (Nat.eqb c) ks) eqn:Hex; [ | reflexivity ].
    apply existsb_exists in Hex. destruct Hex as [x [Hx Hxe]].
    apply Nat.eqb_eq in Hxe. subst x. contradiction.
Qed.

Lemma for2_cell (n m : nat) (a : thread_args_t) :
  (c < n)%nat -> (ch < m)%nat ->
  channel_limits (for2 n m body a) c ch = g c ch (channel_limits a c ch).
Proof.
  intros Hc Hch. unfold for2.
  rewrite (outer_loop_cell (seq_NoDup m 0) (seq_NoDup n 0)).
  assert (H1 : existsb (Nat.eqb c) (seq 0 n) = true).
  { apply existsb_exists. exists c. split.
    - apply in_seq. lia.
    - apply Nat.eqb_refl. }
  assert (H2 : existsb (Nat.eqb ch) (seq 0 m) = true).
  { apply existsb_exists. exists ch. split.
    - apply in_seq. lia.
    - apply Nat.eqb_refl. }
  rewrite H1, H2. reflexivity.
Qed.
End OneCell.

Lemma set_extremes_cell (cfg : rc_config) (args : thread_args_t) (c ch : nat) :
  (c < RC_NUMBER_CONTROLLERS cfg)%nat -> (ch < RC_NUMBER_CHANNELS cfg)%nat ->
  channel_limits (set_extremes cfg args) c ch = limits_extremes.
Proof.
  intros Hc Hch. unfold set_extremes.
  exact (for2_cell (fun _ _ _ => limits_extremes) args Hc Hch).
Qed.

Lemma sample_channels_cell (cfg : rc_config) (pulsewidth : nat -> nat -> F32.t)
    (args : thread_args_t) (c ch : nat) :
  (c < RC_NUMBER_CONTROLLERS cfg)%nat -> (ch < RC_NUMBER_CHANNELS cfg)%nat ->
  channel_limits (sample_channels cfg pulsewidth args) c ch
  = calibrate_sample (channel_limits args c ch) (pulsewidth c ch).
Proof.
  intros Hc Hch. unfold sample_channels.
  exact (for2_cell (fun i j old => calibrate_sample old (pulsewidth i j))
                   args Hc Hch).
Qed.

(** The countdown from [k] ticks runs exactly [k] rounds. *)
Lemma calibration_loop_rounds (cfg : rc_config)
    (receiver : nat -> nat -> nat -> F32.t) (k : nat) :
  forall fuel round args,
    (k <= fuel)%nat ->
    (Z.of_nat k * calibration_tick < 2 ^ 32)%Z ->
    calibration_loop fuel cfg receiver round
                     (Z.of_nat k * calibration_tick) args
    = Some (fold_left (fun a r => sample_channels cfg (receiver r) a)
                      (seq round k) args).
Proof.
  unfold calibration_tick.
  induction k as [ | k IH ]; intros fuel round args Hfuel Hbound.
  - destruct fuel; reflexivity.
  - destruct fuel as [ | fuel ]; [ lia | ].
    cbn [calibration_loop seq fold_left].
    replace (Z.of_nat (S k) * 100 >? 0)%Z with true
      by (symmetry; apply Z.gtb_lt; lia).
    replace (wrap_unsigned (Z.of_nat (S k) * 100 - calibration_tick))
      with (Z.of_nat k * 100)%Z.
    + apply IH; lia.
    + unfold wrap_unsigned, calibration_tick.
      rewrite Z.mod_small; lia.
Qed.

Lemma rounds_cell (cfg : rc_config) (receiver : nat -> nat -> nat -> F32.t)
    (c ch : nat) :
  (c < RC_NUMBER_CONTROLLERS cfg)%nat -> (ch < RC_NUMBER_CHANNELS cfg)%nat ->
  forall rounds args,
    channel_limits
      (fold_left (fun a r => sample_channels cfg (receiver r) a) rounds args)
      c ch
    = fold_left calibrate_sample
        (List.map (fun k => receiver k c ch) rounds)
        (channel_limits args c ch).
Proof.
  intros Hc Hch. induction rounds as [ | r rounds IH ]; intros args.
  - reflexivity.
  - cbn [fold_left List.map]. rewrite IH, sample_channels_cell by assumption.
    reflexivity.
Qed.

(** With fuel for a hundred rounds the task returns, and each channel's
    limits are those of [calibrate_channel] on the hundred samples the
    channel delivered. *)
Lemma task_calibrate_channels_cell (cfg : rc_config)
    (receiver : nat -> nat -> nat -> F32.t) (args : thread_args_t)
    (fuel c ch : nat) :
  (100 <= fuel)%nat ->
  (c < RC_NUMBER_CONTROLLERS cfg)%nat -> (ch < RC_NUMBER_CHANNELS cfg)%nat ->
  exists args',
    task_calibrate_channels fuel cfg receiver args = Some args' /\
    channel_limits args' c ch
    = calibrate_channel (channel_stream receiver c ch 100).
Proof.
  intros Hfuel Hc Hch. unfold task_calibrate_channels.
  change calibration_time_ms with (Z.of_nat 100 * calibration_tick)%Z.
  rewrite calibration_loop_rounds by (cbn; lia).
  eexists. split; [ reflexivity | ].
  rewrite rounds_cell, set_extremes_cell by assumption.
  reflexivity.
Qed.

(** * Further properties of the code *)

(** ** Command handlers and the command queue *)

(** X1.  A command either succeeds or leaves the whole record as it was.
    RET_OK from an arming command means the state has changed; the status
    command returns RET_OK and changes nothing.  RET_ALREADY_ARMED is
    returned only in the fully armed state and RET_ALREADY_DISARMED only in
    the disarmed state; RET_ERROR is never returned. *)
Theorem command_execute_ok_or_unchanged :
  forall command args,
    let args' := fst (command_execute command args) in
    let ret := snd (command_execute command args) in
    (ret = RET_OK /\ id command = STATUS /\ args' = args) \/
    (ret = RET_OK /\ id command <> STATUS /\ state args' <> state args) \/
    (ret = RET_ALREADY_ARMED /\ state args = STATE_FULLY_ARMED /\ args' = args) \/
    (ret = RET_ALREADY_DISARMED /\ state args = STATE_DISARMED /\ args' = args).
Proof.
  intros [c nm] [s ctl lim o]. unfold command_execute. cbn [id].
  destruct c; cbn;
    unfold command_fully_disarm, command_partial_disarm,
           command_partial_arm, command_fully_arm, command_status;
    destruct s; cbn;
    first [ left; repeat split; congruence
          | right; left; repeat split; congruence
          | right; right; left; repeat split; congruence
          | right; right; right; repeat split; congruence ].
Qed.

Lemma command_execute_frame (command : command_t) (args : thread_args_t) :
  controls (fst (command_execute command args)) = controls args /\
  channel_limits (fst (command_execute command args)) = channel_limits args /\
  outputs (fst (command_execute command args)) = outputs args.
Proof.
  destruct command as [c nm], args as [s ctl lim o].
  unfold command_execute. cbn [id].
  destruct c, s; cbn; repeat split.
Qed.

(** X2.  Whatever commands the queue holds, processing it writes nothing but
    the arming state: control values, channel limits and outputs are those
    of the start; and every command gets exactly one return code. *)
Theorem task_process_commands_frame :
  forall queue args,
    controls (fst (task_process_commands queue args)) = controls args /\
    channel_limits (fst (task_process_commands queue args))
      = channel_limits args /\
    outputs (fst (task_process_commands queue args)) = outputs args /\
    List.length (snd (task_process_commands queue args)) = List.length queue.
Proof.
  induction queue as [ | c queue IH ]; intros args.
  - cbn. repeat split.
  - cbn [task_process_commands].
    destruct (command_execute_frame c args) as [Hc [Hl Ho]].
    destruct (command_execute c args) as [args1 err]. cbn [fst] in *.
    specialize (IH args1).
    destruct (task_process_commands queue args1) as [args2 errs].
    cbn [fst snd List.length] in *.
    destruct IH as [IHc [IHl [IHo IHn]]].
    repeat split; congruence.
Qed.

(** X4.  From any state but disarmed, partial-disarm followed by partial-arm
    gives back the record it started from. *)
Theorem partial_arm_after_partial_disarm :
  forall c1 c2 args,
    state args <> STATE_DISARMED ->
    snd (command_partial_disarm c1 args) = RET_OK /\
    fst (command_partial_arm c2 (fst (command_partial_disarm c1 args))) = args.
Proof.
  intros c1 c2 [s ctl lim o] H.
  unfold command_partial_arm, command_partial_disarm. cbn in *.
  destruct s; cbn; try (split; reflexivity). congruence.
Qed.

Lemma partial_arm_after_partial_disarm_witness :
  state (bench_args STATE_FULLY_ARMED f50 f50 f50 f50) <> STATE_DISARMED /\
  fst (command_partial_arm cmd_partial_arm
         (fst (command_partial_disarm cmd_partial_disarm
                 (bench_args STATE_FULLY_ARMED f50 f50 f50 f50))))
  = bench_args STATE_FULLY_ARMED f50 f50 f50 f50.
Proof.
  split; [ discriminate | ].
  apply (partial_arm_after_partial_disarm cmd_partial_disarm cmd_partial_arm
           (bench_args STATE_FULLY_ARMED f50 f50 f50 f50)).
  discriminate.
Defined.

Lemma process_repeat_step (c : command_t) (n : nat) (args : thread_args_t) :
  fst (task_process_commands (repeat c (S n)) args)
  = fst (task_process_commands (repeat c n) (fst (command_execute c args))).
Proof.
  cbn [repeat task_process_commands].
  destruct (command_execute c args) as [args1 err]. cbn [fst].
  destruct (task_process_commands (repeat c n) args1); reflexivity.
Qed.

Lemma process_repeat_stays (c : command_t) (target : state_t) :
  (forall args, state args = target ->
                state (fst (command_execute c args)) = target) ->
  forall n args,
    state args = target ->
    state (fst (task_process_commands (repeat c n) args)) = target.
Proof.
  intros Hstay. induction n as [ | n IH ]; intros args H.
  - exact H.
  - rewrite process_repeat_step. apply IH, Hstay, H.
Qed.

(** X5.  The chain of the partial commands has three steps: three or more
    partial-arm commands end fully armed and three or more partial-disarm
    commands end disarmed, from any state. *)
Theorem partial_commands_saturate :
  forall c n args,
    (3 <= n)%nat ->
    (id c = PARTIAL_ARM ->
     state (fst (task_process_commands (repeat c n) args)) = STATE_FULLY_ARMED)
    /\
    (id c = PARTIAL_DISARM ->
     state (fst (task_process_commands (repeat c n) args)) = STATE_DISARMED).
Proof.
  intros c n args Hn.
  destruct n as [ | [ | [ | n ] ] ]; try lia.
  rewrite !process_repeat_step.
  destruct c as [ci nm]. split; intros Hc; cbn [id] in Hc; subst ci.
  - apply process_repeat_stays.
    + intros [s ctl lim o] H. cbn in H. subst s. reflexivity.
    + destruct args as [s ctl lim o]. destruct s; reflexivity.
  - apply process_repeat_stays.
    + intros [s ctl lim o] H. cbn in H. subst s. reflexivity.
    + destruct args as [s ctl lim o]. destruct s; reflexivity.
Qed.

Lemma partial_commands_saturate_witness :
  (3 <= 5)%nat /\
  state (fst (task_process_commands (repeat cmd_partial_arm 5)
                (bench_args STATE_DISARMED f50 f50 f50 f50)))
  = STATE_FULLY_ARMED /\
  state (fst (task_process_commands (repeat cmd_partial_disarm 5)
                (bench_args STATE_FULLY_ARMED f50 f50 f50 f50)))
  = STATE_DISARMED.
Proof.
  split; [ lia | ]. split.
  - apply (partial_commands_saturate cmd_partial_arm
             (bench_args STATE_DISARMED f50 f50 f50 f50)
             (n := 5)); [ lia | reflexivity ].
  - apply (partial_commands_saturate cmd_partial_disarm
             (bench_args STATE_FULLY_ARMED f50 f50 f50 f50)
             (n := 5)); [ lia | reflexivity ].
Defined.

(** X6.  The last word wins: a queue that ends with fully-disarm leaves the
    robot disarmed and one that ends with fully-arm leaves it fully armed,
    whatever the commands before and whatever the state at the start. *)
Theorem process_commands_last_full_command :
  forall queue c args,
    (id c = FULLY_DISARM ->
     state (fst (task_process_commands (queue ++ [c]) args)) = STATE_DISARMED)
    /\
    (id c = FULLY_ARM ->
     state (fst (task_process_commands (queue ++ [c]) args))
     = STATE_FULLY_ARMED).
Proof.
  induction queue as [ | q queue IH ]; intros c args.
  - destruct c as [ci nm], args as [s ctl lim o].
    split; intros Hc; cbn [id] in Hc; subst ci; destruct s; reflexivity.
  - cbn [app task_process_commands].
    destruct (command_execute q args) as [args1 err].
    specialize (IH c args1).
    destruct (task_process_commands (queue ++ [c]) args1) as [args2 errs].
    exact IH.
Qed.

Lemma process_commands_last_full_command_witness :
  id cmd_fully_disarm = FULLY_DISARM /\
  state (fst (task_process_commands
                ([cmd_partial_arm; cmd_fully_arm; cmd_status]
                   ++ [cmd_fully_disarm])
                (bench_args STATE_WEAPON_ONLY f50 f50 f50 f50)))
  = STATE_DISARMED.
Proof.
  split; [ reflexivity | ].
  apply (process_commands_last_full_command
           [cmd_partial_arm; cmd_fully_arm; cmd_status] cmd_fully_disarm
           (bench_args STATE_WEAPON_ONLY f50 f50 f50 f50)).
  reflexivity.
Defined.

(** ** The failsafe and arming tasks *)

(** X7.  The failsafe task treats the two axes independently: after a pass
    an axis is live exactly when it was live before and its transmitter is
    not stalled.  So a stalled axis is never live after the pass, and a
    healthy axis is never taken down.  Nothing but the state is written. *)
Theorem task_failsafe_per_axis :
  forall drive_inactive weapon_inactive args,
    let args' := task_failsafe drive_inactive weapon_inactive args in
    drive_live (state args')
      = drive_live (state args) && negb drive_inactive /\
    weapon_live (state args')
      = weapon_live (state args) && negb weapon_inactive /\
    controls args' = controls args /\
    channel_limits args' = channel_limits args /\
    outputs args' = outputs args.
Proof.
  intros d w [s ctl lim o]. unfold task_failsafe. cbn [state].
  destruct s, d, w; cbn; repeat split.
Qed.

(** X8.  A second failsafe pass with the same stall flags changes nothing. *)
Theorem task_failsafe_idempotent :
  forall drive_inactive weapon_inactive args,
    task_failsafe drive_inactive weapon_inactive
      (task_failsafe drive_inactive weapon_inactive args)
    = task_failsafe drive_inactive weapon_inactive args.
Proof.
  intros d w [s ctl lim o]. unfold task_failsafe. cbn [state].
  destruct s, d, w; reflexivity.
Qed.

Lemma task_arming_frame (cfg : rc_config) (d w : bool) (args : thread_args_t) :
  controls (task_arming cfg d w args) = controls args /\
  channel_limits (task_arming cfg d w args) = channel_limits args /\
  outputs (task_arming cfg d w args) = outputs args.
Proof. repeat split. Qed.

(** X9.  After an arming pass, an axis whose arm switch is off is not live;
    an axis that was live stays live exactly when its switch is on, whatever
    the stall flags and the stick positions. *)
Theorem task_arming_follows_switch :
  forall cfg drive_stalled weapon_stalled args axis,
    let s' := state (task_arming cfg drive_stalled weapon_stalled args) in
    (switch_on cfg args axis = false -> axis_live axis s' = false) /\
    (axis_live axis (state args) = true ->
     axis_live axis s' = switch_on cfg args axis).
Proof.
  intros cfg d w args axis. cbn zeta. rewrite task_arming_state.
  generalize (sticks_at_rest cfg args Drive) (sticks_at_rest cfg args Weapon).
  intros rd rw.
  destruct axis; cbn [axis_live];
    destruct (switch_on cfg args Drive), (switch_on cfg args Weapon),
             (state args), d, w, rd, rw; cbn; split; congruence.
Qed.

Lemma task_arming_follows_switch_witness :
  let a := bench_args STATE_FULLY_ARMED f50 f50 f50 f50 in
  switch_on bench_cfg a Drive = false /\
  axis_live Drive (state a) = true /\
  axis_live Drive (state (task_arming bench_cfg false false a)) = false.
Proof.
  cbn zeta. split; [ reflexivity | ]. split; [ reflexivity | ].
  apply (proj1 (task_arming_follows_switch bench_cfg false false
                  (bench_args STATE_FULLY_ARMED f50 f50 f50 f50) Drive)).
  reflexivity.
Defined.

(** X10.  The arming task brings an axis up only on the full arm gesture: if
    an axis is not live before a pass and live after it, then its switch is
    on, its transmitter is not stalled, its throttle is within 0..2 and its
    elevation, rudder and aileron are within 45..55. *)
Theorem task_arming_raises_only_on_gesture :
  forall cfg drive_stalled weapon_stalled args axis,
    axis_live axis (state args) = false ->
    axis_live axis (state (task_arming cfg drive_stalled weapon_stalled args))
      = true ->
    switch_on cfg args axis = true /\
    (match axis with Drive => drive_stalled | Weapon => weapon_stalled end)
      = false /\
    sticks_at_rest cfg args axis = true.
Proof.
  intros cfg d w args axis. rewrite task_arming_state.
  destruct axis; cbn [axis_live];
    generalize (sticks_at_rest cfg args Drive)
               (sticks_at_rest cfg args Weapon);
    intros rd rw;
    destruct (switch_on cfg args Drive), (switch_on cfg args Weapon),
             (state args), d, w, rd, rw; cbn; intros H1 H2;
    repeat split; congruence.
Qed.

Lemma task_arming_raises_only_on_gesture_witness :
  let a := set_controls (bench_args STATE_DISARMED f50 f50 f50 f50)
             (fun controller channel =>
                match controller, channel with
                | 1, 4 => f100
                | 1, 2 => f0
                | _, _ => f50
                end) in
  axis_live Drive (state a) = false /\
  axis_live Drive (state (task_arming bench_cfg false false a)) = true /\
  switch_on bench_cfg a Drive = true /\
  sticks_at_rest bench_cfg a Drive = true.
Proof.
  cbn zeta. split; [ reflexivity | ]. split; [ reflexivity | ].
  pose proof (task_arming_raises_only_on_gesture bench_cfg false false
                (set_controls (bench_args STATE_DISARMED f50 f50 f50 f50)
                   (fun controller channel =>
                      match controller, channel with
                      | 1, 4 => f100
                      | 1, 2 => f0
                      | _, _ => f50
                      end))
                Drive eq_refl eq_refl) as H.
  split; [ exact (proj1 H) | exact (proj2 (proj2 H)) ].
Defined.

(** X11.  With the controls and the stall flags held, the arming task settles
    within two passes: a third pass changes nothing. *)
Theorem task_arming_settles_in_two_passes :
  forall cfg drive_stalled weapon_stalled args,
    let pass := task_arming cfg drive_stalled weapon_stalled in
    pass (pass (pass args)) = pass (pass args).
Proof.
  intros cfg d w [s ctl lim o]. cbn zeta.
  unfold task_arming. cbn [state controls set_state].
  generalize ((ctl 0 (RC_0_ARM_SWITCH cfg) >? RC_SWITCH_MIDPOINT cfg)%f32).
  generalize ((ctl 1 (RC_1_ARM_SWITCH cfg) >? RC_SWITCH_MIDPOINT cfg)%f32).
  intros sd sw.
  match goal with
  | |- context [sw && negb w && ?b1 && ?b2 && ?b3 && ?b4] =>
      generalize b1 b2 b3 b4
  end.
  intros w1 w2 w3 w4.
  match goal with
  | |- context [sd && negb d && ?b1 && ?b2 && ?b3 && ?b4] =>
      generalize b1 b2 b3 b4
  end.
  intros d1 d2 d3 d4.
  destruct s, sd, sw, d, w; cbn;
    try reflexivity;
    destruct w1, w2, w3, w4; cbn; try reflexivity;
    destruct d1, d2, d3, d4; reflexivity.
Qed.

(** ** Loop nests over controllers and channels *)

Lemma existsb_eqb_seq (c n : nat) :
  existsb (Nat.eqb c) (seq 0 n) = (c <? n)%nat.
Proof.
  destruct (c <? n)%nat eqn:H.
  - apply Nat.ltb_lt in H. apply existsb_exists. exists c. split.
    + apply in_seq. lia.
    + apply Nat.eqb_refl.
  - apply Nat.ltb_ge in H.
    destruct (existsb (Nat.eqb c) (seq 0 n)) eqn:Hex; [ | reflexivity ].
    apply existsb_exists in Hex. destruct Hex as [x [Hx Hxe]].
    apply Nat.eqb_eq in Hxe. subst x. apply in_seq in Hx. lia.
Qed.

Section LoopNest.
Variables (S A B : Type).
Variable body : nat -> nat -> S -> S.

(** What the body leaves alone, the whole nest leaves alone. *)
Lemma for2_preserves (proj : S -> B) :
  (forall i j s, proj (body i j s) = proj s) ->
  forall n m s, proj (for2 n m body s) = proj s.
Proof.
  intros Hbody n m. unfold for2.
  generalize (seq 0 n) as ks. generalize (seq 0 m) as js. intros js.
  assert (Hin : forall i js' s,
             proj (fold_left (fun s j => body i j s) js' s) = proj s).
  { intros i js'. induction js' as [ | j js' IH ]; intros s.
    - reflexivity.
    - cbn [fold_left]. rewrite IH. apply Hbody. }
  induction ks as [ | k ks IH ]; intros s.
  - reflexivity.
  - cbn [fold_left]. rewrite IH. apply Hin.
Qed.

(** A body that rewrites cell [(i, j)] of an array from the cell's old value
    and from a part [aux] of the record that it leaves alone. *)
Variable get : S -> nat -> nat -> A.
Variable aux : S -> B.
Variable new : B -> nat -> nat -> A -> A.
Hypothesis body_aux : forall i j s, aux (body i j s) = aux s.
Hypothesis body_get :
  forall i j s c ch,
    get (body i j s) c ch
    = if Nat.eqb c i && Nat.eqb ch j
      then new (aux s) i j (get s i j)
      else get s c ch.

Lemma nest_inner (c ch : nat) (js : list nat) :
  NoDup js ->
  forall i s,
    aux (fold_left (fun s j => body i j s) js s) = aux s /\
    get (fold_left (fun s j => body i j s) js s) c ch
    = if Nat.eqb c i && existsb (Nat.eqb ch) js
      then new (aux s) c ch (get s c ch)
      else get s c ch.
Proof.
  induction 1 as [ | j js Hj Hnd IH ]; intros i s.
  - cbn. rewrite andb_false_r. split; reflexivity.
  - cbn [fold_left existsb].
    destruct (IH i (body i j s)) as [IHa IHg].
    rewrite IHa, IHg, body_aux, body_get. split; [ reflexivity | ].
    destruct (Nat.eqb c i) eqn:Hc; cbn [andb]; [ | reflexivity ].
    destruct (Nat.eqb ch j) eqn:Hch; cbn [orb]; [ | reflexivity ].
    apply Nat.eqb_eq in Hc, Hch. subst i j.
    destruct (existsb (Nat.eqb ch) js) eqn:Hex; [ | reflexivity ].
    apply existsb_exists in Hex. destruct Hex as [x [Hx Hxe]].
    apply Nat.eqb_eq in Hxe. subst x. contradiction.
Qed.

Lemma nest_outer (c ch : nat) (js : list nat) (Hjs : NoDup js)
    (ks : list nat) :
  NoDup ks ->
  forall s,
    aux (fold_left (fun s i => fold_left (fun s j => body i j s) js s) ks s)
    = aux s /\
    get (fold_left (fun s i => fold_left (fun s j => body i j s) js s) ks s)
        c ch
    = if existsb (Nat.eqb c) ks && existsb (Nat.eqb ch) js
      then new (aux s) c ch (get s c ch)
      else get s c ch.
Proof.
  induction 1 as [ | i ks Hi Hnd IH ]; intros s.
  - split; reflexivity.
  - cbn [fold_left existsb].
    destruct (IH (fold_left (fun s j => body i j s) js s)) as [IHa IHg].
    destruct (nest_inner c ch Hjs i s) as [Ha Hg].
    rewrite IHa, IHg, Ha, Hg. split; [ reflexivity | ].
    destruct (Nat.eqb c i) eqn:Hc; cbn [andb orb]; [ | reflexivity ].
    apply Nat.eqb_eq in Hc. subst i.
    destruct (existsb (Nat.eqb ch) js); [ | now rewrite andb_false_r ].
    destruct (existsb (Nat.eqb c) ks) eqn:Hex; [ | reflexivity ].
    apply existsb_exists in Hex. destruct Hex as [x [Hx Hxe]].
    apply Nat.eqb_eq in Hxe. subst x. contradiction.
Qed.

(** Every cell within the bounds is rewritten once, from its own old value;
    every other cell keeps its value. *)
Lemma for2_cells (n m : nat) (s : S) (c ch : nat) :
  get (for2 n m body s) c ch
  = if (c <? n)%nat && (ch <? m)%nat
    then new (aux s) c ch (get s c ch)
    else get s c ch.
Proof.
  unfold for2.
  rewrite (proj2 (nest_outer c ch (seq_NoDup m 0) (seq_NoDup n 0) s)).
  rewrite !existsb_eqb_seq. reflexivity.
Qed.
End LoopNest.

(** ** The receiver task *)

Lemma task_read_receiver_frame (cfg : rc_config)
    (pulsewidth : nat -> nat -> F32.t) (args : thread_args_t) :
  state (task_read_receiver cfg pulsewidth args) = state args /\
  channel_limits (task_read_receiver cfg pulsewidth args)
    = channel_limits args /\
  outputs (task_read_receiver cfg pulsewidth args) = outputs args.
Proof.
  unfold task_read_receiver. repeat split.
  - apply for2_preserves with (proj := state). reflexivity.
  - apply for2_preserves with (proj := channel_limits). reflexivity.
  - apply for2_preserves with (proj := outputs). reflexivity.
Qed.

Lemma task_read_receiver_controls (cfg : rc_config)
    (pulsewidth : nat -> nat -> F32.t) (args : thread_args_t)
    (controller channel : nat) :
  controls (task_read_receiver cfg pulsewidth args) controller channel
  = if (controller <? RC_NUMBER_CONTROLLERS cfg)%nat
       && (channel <? RC_NUMBER_CHANNELS cfg)%nat
    then normalize (pulsewidth controller channel)
                   (channel_limits args controller channel)
    else controls args controller channel.
Proof.
  unfold task_read_receiver.
  apply for2_cells
    with (get := controls) (aux := channel_limits)
         (new := fun lims i j (_ : F32.t) =>
                   normalize (pulsewidth i j) (lims i j)).
  - reflexivity.
  - intros i j s c' ch'. reflexivity.
Qed.

(** X12.  One pass of the receiver task stores, for every controller and
    channel within the configured numbers, the normalisation of that
    channel's pulse width by that channel's own limits; it leaves every
    other cell of the controls, the state, the limits and the outputs as
    they were. *)
Theorem task_read_receiver_cells :
  forall cfg pulsewidth args controller channel,
    let args' := task_read_receiver cfg pulsewidth args in
    controls args' controller channel
    = (if (controller <? RC_NUMBER_CONTROLLERS cfg)%nat
          && (channel <? RC_NUMBER_CHANNELS cfg)%nat
       then normalize (pulsewidth controller channel)
                      (channel_limits args controller channel)
       else controls args controller channel) /\
    state args' = state args /\
    channel_limits args' = channel_limits args /\
    outputs args' = outputs args.
Proof.
  intros cfg pulsewidth args c ch. cbn zeta.
  split; [ apply task_read_receiver_controls | apply task_read_receiver_frame ].
Qed.

(** ** More on calibration *)

Lemma set_extremes_frame (cfg : rc_config) (args : thread_args_t) :
  state (set_extremes cfg args) = state args /\
  controls (set_extremes cfg args) = controls args /\
  outputs (set_extremes cfg args) = outputs args.
Proof.
  unfold set_extremes. repeat split.
  - apply for2_preserves with (proj := state). reflexivity.
  - apply for2_preserves with (proj := controls). reflexivity.
  - apply for2_preserves with (proj := outputs). reflexivity.
Qed.

Lemma sample_channels_frame (cfg : rc_config)
    (pulsewidth : nat -> nat -> F32.t) (args : thread_args_t) :
  state (sample_channels cfg pulsewidth args) = state args /\
  controls (sample_channels cfg pulsewidth args) = controls args /\
  outputs (sample_channels cfg pulsewidth args) = outputs args.
Proof.
  unfold sample_channels. repeat split.
  - apply for2_preserves with (proj := state). reflexivity.
  - apply for2_preserves with (proj := controls). reflexivity.
  - apply for2_preserves with (proj := outputs). reflexivity.
Qed.

Lemma set_extremes_cells (cfg : rc_config) (args : thread_args_t)
    (c ch : nat) :
  channel_limits (set_extremes cfg args) c ch
  = if (c <? RC_NUMBER_CONTROLLERS cfg)%nat && (ch <? RC_NUMBER_CHANNELS cfg)%nat
    then limits_extremes
    else channel_limits args c ch.
Proof.
  unfold set_extremes.
  apply for2_cells
    with (get := channel_limits) (aux := fun _ : thread_args_t => tt)
         (new := fun (_ : unit) (_ _ : nat) (_ : channel_limits_t) =>
                   limits_extremes).
  - reflexivity.
  - intros i j s c' ch'. reflexivity.
Qed.

Lemma sample_channels_cells (cfg : rc_config)
    (pulsewidth : nat -> nat -> F32.t) (args : thread_args_t) (c ch : nat) :
  channel_limits (sample_channels cfg pulsewidth args) c ch
  = if (c <? RC_NUMBER_CONTROLLERS cfg)%nat && (ch <? RC_NUMBER_CHANNELS cfg)%nat
    then calibrate_sample (channel_limits args c ch) (pulsewidth c ch)
    else channel_limits args c ch.
Proof.
  unfold sample_channels.
  apply for2_cells
    with (get := channel_limits) (aux := fun _ : thread_args_t => tt)
         (new := fun (_ : unit) i j old =>
                   calibrate_sample old (pulsewidth i j)).
  - reflexivity.
  - intros i j s c' ch'. reflexivity.
Qed.

Lemma rounds_frame (cfg : rc_config) (receiver : nat -> nat -> nat -> F32.t)
    (rounds : list nat) :
  forall args,
    let args' :=
      fold_left (fun a r => sample_channels cfg (receiver r) a) rounds args in
    state args' = state args /\
    controls args' = controls args /\
    outputs args' = outputs args /\
    forall c ch,
      ((c <? RC_NUMBER_CONTROLLERS cfg)%nat
       && (ch <? RC_NUMBER_CHANNELS cfg)%nat = false) ->
      channel_limits args' c ch = channel_limits args c ch.
Proof.
  induction rounds as [ | r rounds IH ]; intros args; cbn zeta.
  - repeat split.
  - cbn [fold_left].
    destruct (IH (sample_channels cfg (receiver r) args)) as [Hs [Hc [Ho Hl]]].
    destruct (sample_channels_frame cfg (receiver r) args) as [Hs' [Hc' Ho']].
    repeat split; try congruence.
    intros c ch Hout. rewrite Hl by assumption.
    rewrite sample_channels_cells, Hout. reflexivity.
Qed.

(** X14.  One activation of the calibration task, given fuel for a hundred
    rounds, returns after exactly a hundred rounds.  Every channel within
    the configured numbers then holds the limits of its own hundred samples
    (the per-channel fold from the extremes); every other cell of the limits,
    the arming state, the control values and the outputs are untouched. *)
Theorem task_calibrate_channels_result :
  forall fuel cfg receiver args,
    (100 <= fuel)%nat ->
    exists args',
      task_calibrate_channels fuel cfg receiver args = Some args' /\
      (forall c ch,
          channel_limits args' c ch
          = if (c <? RC_NUMBER_CONTROLLERS cfg)%nat
               && (ch <? RC_NUMBER_CHANNELS cfg)%nat
            then calibrate_channel (channel_stream receiver c ch 100)
            else channel_limits args c ch) /\
      state args' = state args /\
      controls args' = controls args /\
      outputs args' = outputs args.
Proof.
  intros fuel cfg receiver args Hfuel. unfold task_calibrate_channels.
  change calibration_time_ms with (Z.of_nat 100 * calibration_tick)%Z.
  rewrite calibration_loop_rounds by (cbn; lia).
  eexists. split; [ reflexivity | ].
  destruct (rounds_frame cfg receiver (seq 0 100) (set_extremes cfg args))
    as [Hs [Hc [Ho Hl]]].
  destruct (set_extremes_frame cfg args) as [Hs' [Hc' Ho']].
  split; [ | repeat split; congruence ].
  intros c ch.
  destruct ((c <? RC_NUMBER_CONTROLLERS cfg)%nat
            && (ch <? RC_NUMBER_CHANNELS cfg)%nat) eqn:Hin.
  - apply andb_prop in Hin. destruct Hin as [H1 H2].
    apply Nat.ltb_lt in H1, H2.
    rewrite rounds_cell, set_extremes_cell by assumption. reflexivity.
  - rewrite Hl by assumption. rewrite set_extremes_cells, Hin. reflexivity.
Qed.

Lemma task_calibrate_channels_result_witness :
  (100 <= 100)%nat /\
  exists args',
    task_calibrate_channels 100 bench_cfg
      (fun k _ _ => F32.of_Z (1000 + Z.of_nat k))
      (bench_args STATE_DISARMED f50 f50 f50 f50) = Some args' /\
    state args' = STATE_DISARMED.
Proof.
  split; [ lia | ].
  destruct (task_calibrate_channels_result
              bench_cfg (fun k _ _ => F32.of_Z (1000 + Z.of_nat k))
              (bench_args STATE_DISARMED f50 f50 f50 f50)
              (le_n 100)) as [args' [H [_ [Hs _]]]].
  exists args'. split; [ exact H | exact Hs ].
Defined.

(** X15.  Further samples only widen the limits: after more samples the
    minimum is the same or lower and the maximum is the same or higher. *)
Theorem calibrate_channel_widens :
  forall samples more,
    let l1 := calibrate_channel samples in
    let l2 := calibrate_channel (samples ++ more) in
    (min l2 = min l1 \/ (min l2 <? min l1)%f32 = true) /\
    (max l2 = max l1 \/ (max l2 >? max l1)%f32 = true).
Proof.
  intros samples more. cbn zeta. unfold calibrate_channel.
  rewrite fold_left_app.
  destruct (running_min more (fold_left calibrate_sample samples limits_extremes))
    as [Hmin _].
  destruct (running_max more (fold_left calibrate_sample samples limits_extremes))
    as [Hmax _].
  cbn zeta in Hmin, Hmax. split.
  - destruct Hmin as [H | [_ H]]; auto.
  - destruct Hmax as [H | [_ H]]; auto.
Qed.

Lemma calibrate_constant_stream (v : F32.t) (samples : list F32.t) :
  (v <? f10000)%f32 = true ->
  (v >? F32.of_Z (-10000))%f32 = true ->
  samples <> [] ->
  Forall (fun s => s = v) samples ->
  calibrate_channel samples = {| min := v; max := v |}.
Proof.
  intros Hlo Hhi Hne Hall. unfold calibrate_channel.
  destruct samples as [ | s rest ]; [ congruence | ].
  inversion Hall as [ | ? ? Hs Hrest ]; subst.
  cbn [fold_left].
  assert (H1 : calibrate_sample limits_extremes v = {| min := v; max := v |}).
  { unfold calibrate_sample.
    change (min limits_extremes) with f10000. rewrite Hlo. cbn [min max].
    change (F32.of_Z (-10000)) with (max limits_extremes) in Hhi.
    rewrite Hhi. reflexivity. }
  rewrite H1. clear Hall Hne H1.
  induction Hrest as [ | s rest Hs Hrest IH ].
  - reflexivity.
  - subst s. cbn [fold_left].
    assert (H2 : calibrate_sample {| min := v; max := v |} v
                 = {| min := v; max := v |}).
    { unfold calibrate_sample. cbn [min max]. unfold F32.ltb, F32.gtb.
      rewrite SFltb_irrefl. cbn [min max]. rewrite SFltb_irrefl. reflexivity. }
    rewrite H2. exact IH.
Qed.

Lemma normalize_equal_limits_nan (pw m : F32.t) :
  normalize pw {| min := m; max := m |} = S754_nan.
Proof.
  unfold normalize. cbv [min max]. cbv zeta.
  assert (Hn : (exists s, (clamp pw m m - m)%f32 = S754_zero s)
               \/ (clamp pw m m - m)%f32 = S754_nan).
  { unfold clamp.
    destruct (pw <? m)%f32 eqn:Hlt.
    - destruct (sub_self m) as [-> | ->]; eauto.
    - destruct (pw >? m)%f32 eqn:Hgt.
      + destruct (sub_self m) as [-> | ->]; eauto.
      + now apply sub_of_unordered_or_equal. }
  rewrite (div_zero_by_zero Hn (sub_self m)). reflexivity.
Qed.

(** X16.  A channel that is not moved during calibration is unusable
    afterwards.  If a channel delivers the same value in all hundred rounds
    (a value between the two extremes), its limits end up equal to that
    value, and from then on every pass of the receiver task stores NaN as the
    channel's control value, whatever the pulse width. *)
Theorem unmoved_channel_reads_nan :
  forall fuel cfg receiver args c ch v,
    (100 <= fuel)%nat ->
    (c < RC_NUMBER_CONTROLLERS cfg)%nat ->
    (ch < RC_NUMBER_CHANNELS cfg)%nat ->
    (v <? f10000)%f32 = true ->
    (v >? F32.of_Z (-10000))%f32 = true ->
    (forall k, (k < 100)%nat -> receiver k c ch = v) ->
    exists args',
      task_calibrate_channels fuel cfg receiver args = Some args' /\
      channel_limits args' c ch = {| min := v; max := v |} /\
      forall pulsewidth,
        controls (task_read_receiver cfg pulsewidth args') c ch = S754_nan.
Proof.
  intros fuel cfg receiver args c ch v Hfuel Hc Hch Hlo Hhi Hconst.
  destruct (task_calibrate_channels_cell cfg receiver args Hfuel Hc Hch)
    as [args' [Hrun Hcell]].
  assert (Hlim : channel_limits args' c ch = {| min := v; max := v |}).
  { rewrite Hcell. apply calibrate_constant_stream; try assumption.
    - discriminate.
    - unfold channel_stream. apply Forall_forall. intros s Hs.
      apply in_map_iff in Hs. destruct Hs as [k [<- Hk]].
      apply in_seq in Hk. apply Hconst. lia. }
  exists args'. split; [ exact Hrun | ]. split; [ exact Hlim | ].
  intros pulsewidth. rewrite task_read_receiver_controls.
  apply Nat.ltb_lt in Hc, Hch. rewrite Hc, Hch. cbn [andb].
  rewrite Hlim. apply normalize_equal_limits_nan.
Qed.

Lemma unmoved_channel_reads_nan_witness :
  (100 <= 100)%nat /\
  (1 < RC_NUMBER_CONTROLLERS bench_cfg)%nat /\
  (4 < RC_NUMBER_CHANNELS bench_cfg)%nat /\
  (F32.of_Z 1000 <? f10000)%f32 = true /\
  (F32.of_Z 1000 >? F32.of_Z (-10000))%f32 = true /\
  exists args',
    task_calibrate_channels 100 bench_cfg
      (fun k controller channel =>
         match channel with
         | 4 => F32.of_Z 1000
         | _ => F32.of_Z (1000 + Z.of_nat k)
         end)
      (bench_args STATE_DISARMED f50 f50 f50 f50) = Some args' /\
    controls (task_read_receiver bench_cfg (fun _ _ => F32.of_Z 1500) args')
             1 4 = S754_nan.
Proof.
  split; [ lia | ]. split; [ cbn; lia | ]. split; [ cbn; lia | ].
  split; [ reflexivity | ]. split; [ reflexivity | ].
  assert (Hc : (1 < RC_NUMBER_CONTROLLERS bench_cfg)%nat) by (cbn; lia).
  assert (Hch : (4 < RC_NUMBER_CHANNELS bench_cfg)%nat) by (cbn; lia).
  destruct (unmoved_channel_reads_nan
              bench_cfg
              (fun k controller channel =>
                 match channel with
                 | 4 => F32.of_Z 1000
                 | _ => F32.of_Z (1000 + Z.of_nat k)
                 end)
              (bench_args STATE_DISARMED f50 f50 f50 f50)
              (le_n 100) Hc Hch
              (eq_refl : (F32.of_Z 1000 <? f10000)%f32 = true)
              (eq_refl : (F32.of_Z 1000 >? F32.of_Z (-10000))%f32 = true)
              (fun k _ => eq_refl))
    as [args' [Hrun [_ Hnan]]].
  exists args'. split; [ exact Hrun | apply Hnan ].
Defined.

(** ** More on the mixer and the ESC calls *)

Lemma clamp_0_100_bounds (x : F32.t) :
  (clamp x f0 f100 <? f0)%f32 = false /\ (clamp x f0 f100 >? f100)%f32 = false.
Proof.
  unfold clamp.
  destruct (x <? f0)%f32 eqn:Hlo; [ split; reflexivity | ].
  destruct (x >? f100)%f32 eqn:Hhi; [ split; reflexivity | ].
  split; assumption.
Qed.

(** X17.  What reaches the ESCs in one pass: every throttle sent to a drive
    ESC is neither below 0 nor above 100; every throttle sent to a weapon ESC
    is the weapon controller's throttle channel as it is, without clamping;
    and [failsafe] is called only in the disarmed state. *)
Theorem task_set_escs_throttle_values :
  forall cfg m args,
    Forall (fun call =>
              match call with
              | setThrottle (esc_drive _) v =>
                  (v <? f0)%f32 = false /\ (v >? f100)%f32 = false
              | setThrottle (esc_weapon _) v =>
                  v = controls args 0 (RC_0_THROTTLE cfg)
              | failsafe _ => state args = STATE_DISARMED
              end)
           (snd (task_set_escs cfg m args)).
Proof.
  intros cfg m [s ctl lim o].
  cbv [task_set_escs set_outputs state outputs fst snd].
  set (out := calculate_outputs cfg m _).
  assert (H1 : (wheel_1 out <? f0)%f32 = false
               /\ (wheel_1 out >? f100)%f32 = false).
  { unfold out, calculate_outputs.
    destruct (_ >? f5)%f32; apply clamp_0_100_bounds. }
  assert (H2 : (wheel_2 out <? f0)%f32 = false
               /\ (wheel_2 out >? f100)%f32 = false).
  { unfold out, calculate_outputs.
    destruct (_ >? f5)%f32; apply clamp_0_100_bounds. }
  assert (H3 : (wheel_3 out <? f0)%f32 = false
               /\ (wheel_3 out >? f100)%f32 = false).
  { unfold out, calculate_outputs.
    destruct (_ >? f5)%f32; apply clamp_0_100_bounds. }
  assert (W1 : weapon_motor_1 out = ctl 0 (RC_0_THROTTLE cfg))
    by (unfold out, calculate_outputs; destruct (_ >? f5)%f32; reflexivity).
  assert (W2 : weapon_motor_2 out = ctl 0 (RC_0_THROTTLE cfg))
    by (unfold out, calculate_outputs; destruct (_ >? f5)%f32; reflexivity).
  assert (W3 : weapon_motor_3 out = ctl 0 (RC_0_THROTTLE cfg))
    by (unfold out, calculate_outputs; destruct (_ >? f5)%f32; reflexivity).
  destruct H1 as [H1 H1'], H2 as [H2 H2'], H3 as [H3 H3'].
  destruct s; cbv [dispatch_escs controls];
    repeat (apply Forall_cons; [ try split; first [ assumption | reflexivity ] | ]);
    apply Forall_nil.
Qed.

(** X18.  Inside the deadzone the previous outputs and the math library do
    not matter: two passes that see the same control values, with a
    magnitude not above 5, compute the same outputs; each of the three
    wheels is 50 plus the rudder's offset from 50, clamped, and each weapon
    output is the weapon throttle channel. *)
Theorem deadzone_outputs_depend_on_controls_only :
  forall cfg m1 m2 a1 a2,
    (forall controller channel,
        controls a2 controller channel = controls a1 controller channel) ->
    (stick_magnitude (controls a1 1 (RC_1_AILERON cfg) - f50)%f32
                     (controls a1 1 (RC_1_ELEVATION cfg) - f50)%f32
       >? f5)%f32 = false ->
    let wheel :=
      clamp (f50 + (controls a1 1 (RC_1_RUDDER cfg) - f50))%f32 f0 f100 in
    let weapon := controls a1 0 (RC_0_THROTTLE cfg) in
    calculate_outputs cfg m2 a2 = calculate_outputs cfg m1 a1 /\
    calculate_outputs cfg m1 a1
    = {| wheel_1 := wheel; wheel_2 := wheel; wheel_3 := wheel;
         weapon_motor_1 := weapon; weapon_motor_2 := weapon;
         weapon_motor_3 := weapon |}.
Proof.
  intros cfg m1 m2 a1 a2 Hsame Hdead.
  unfold calculate_outputs. rewrite !Hsame. cbv zeta. rewrite Hdead.
  split; reflexivity.
Qed.

Lemma deadzone_outputs_depend_on_controls_only_witness :
  let a1 := bench_args STATE_DRIVE_ONLY f50 (F32.of_Z 53) f70 f0 in
  let a2 := bench_args STATE_DRIVE_ONLY f50 (F32.of_Z 53) f70 f100 in
  (stick_magnitude (controls a1 1 (RC_1_AILERON bench_cfg) - f50)%f32
                   (controls a1 1 (RC_1_ELEVATION bench_cfg) - f50)%f32
     >? f5)%f32 = false /\
  calculate_outputs bench_cfg bench_libm a2
  = calculate_outputs bench_cfg bench_libm a1 /\
  calculate_outputs bench_cfg bench_libm a1
  = {| wheel_1 := f70; wheel_2 := f70; wheel_3 := f70;
       weapon_motor_1 := f0; weapon_motor_2 := f0; weapon_motor_3 := f0 |}.
Proof.
  cbn zeta.
  assert (Hdead :
    (stick_magnitude
       (controls (bench_args STATE_DRIVE_ONLY f50 (F32.of_Z 53) f70 f0) 1
                 (RC_1_AILERON bench_cfg) - f50)%f32
       (controls (bench_args STATE_DRIVE_ONLY f50 (F32.of_Z 53) f70 f0) 1
                 (RC_1_ELEVATION bench_cfg) - f50)%f32
     >? f5)%f32 = false) by (vm_compute; reflexivity).
  split; [ exact Hdead | ].
  split; [ | vm_compute; reflexivity ].
  exact (proj1 (deadzone_outputs_depend_on_controls_only
                  bench_cfg bench_libm bench_libm
                  (bench_args STATE_DRIVE_ONLY f50 (F32.of_Z 53) f70 f0)
                  (bench_args STATE_DRIVE_ONLY f50 (F32.of_Z 53) f70 f100)
                  (fun _ _ => eq_refl) Hdead)).
Defined.

(** ** The state LEDs *)

(** One pass re-establishes the display: if the LEDs showed the previous
    state (or this is the first pass), they show the current state after
    the pass. *)
Lemma task_state_leds_step (l : led_locals_t) (leds : nat -> bool)
    (a : thread_args_t) :
  ripple_one_lit (weapon_only_ripple l) = true ->
  first_time l = true \/ leds_show (previous_state l) leds = true ->
  ripple_one_lit (weapon_only_ripple (fst (task_state_leds l a))) = true /\
  first_time (fst (task_state_leds l a)) = false /\
  previous_state (fst (task_state_leds l a)) = state a /\
  leds_show (state a) (leds_after leds (snd (task_state_leds l a))) = true.
Proof.
  destruct l as [p f [[[r0 r1] r2] r3]], a as [s ctl lim o].
  unfold task_state_leds.
  cbn [previous_state first_time weapon_only_ripple state].
  intros Hr Hshow.
  destruct s, p, f, r0, r1, r2, r3; try discriminate Hr;
    cbn in Hshow |- *;
    (destruct Hshow as [Hshow | Hshow]; [ try discriminate Hshow | ]);
    repeat split; try reflexivity; try assumption.
Qed.

Lemma led_run_shows_last (passes : list thread_args_t) :
  forall l leds last,
    ripple_one_lit (weapon_only_ripple l) = true ->
    first_time l = true \/ leds_show (previous_state l) leds = true ->
    leds_show (state last) (snd (led_run l leds (passes ++ [last]))) = true /\
    previous_state (fst (led_run l leds (passes ++ [last]))) = state last /\
    ripple_one_lit
      (weapon_only_ripple (fst (led_run l leds (passes ++ [last])))) = true.
Proof.
  induction passes as [ | a passes IH ]; intros l leds last Hr Hshow.
  - cbn [app led_run].
    destruct (task_state_leds_step l leds last Hr Hshow) as [H1 [H2 [H3 H4]]].
    destruct (task_state_leds l last) as [l' ws]. cbn [fst snd] in *.
    repeat split; assumption.
  - cbn [app led_run].
    destruct (task_state_leds_step l leds a Hr Hshow) as [H1 [H2 [H3 H4]]].
    destruct (task_state_leds l a) as [l' ws]. cbn [fst snd] in *.
    apply IH; [ assumption | ]. right. rewrite H3. exact H4.
Qed.

(** X19.  After any number of passes of the LED task, at least one, the four
    LEDs show the arming state found by the last pass: all off when disarmed,
    the first two lit when drive-only, all four lit when fully armed, and
    exactly one lit when weapon-only; whatever the LEDs showed at the start
    and however the state changed between the passes. *)
Theorem leds_show_current_state :
  forall start leds passes last,
    let after := led_run (led_locals_init start) leds (passes ++ [last]) in
    leds_show (state last) (snd after) = true /\
    previous_state (fst after) = state last.
Proof.
  intros start leds passes last. cbn zeta.
  destruct (led_run_shows_last passes (led_locals_init start) leds last)
    as [H1 [H2 _]].
  - reflexivity.
  - left. reflexivity.
  - split; assumption.
Qed.

(** X20.  While the state stays weapon-only the strobe moves on: what LED
    [i] shows after one pass, LED [i+1] shows after the next (LED 0 takes
    over from LED 3); after four such passes the ripple array is as it was
    before them. *)
Theorem weapon_only_strobe_rotates :
  forall l leds a1 a2 a3 a4,
    state a1 = STATE_WEAPON_ONLY ->
    state a2 = STATE_WEAPON_ONLY ->
    state a3 = STATE_WEAPON_ONLY ->
    state a4 = STATE_WEAPON_ONLY ->
    let l1 := fst (task_state_leds l a1) in
    let leds1 := leds_after leds (snd (task_state_leds l a1)) in
    let l2 := fst (task_state_leds l1 a2) in
    let leds2 := leds_after leds1 (snd (task_state_leds l1 a2)) in
    let l3 := fst (task_state_leds l2 a3) in
    let l4 := fst (task_state_leds l3 a4) in
    (leds2 0 = leds1 3 /\ leds2 1 = leds1 0 /\
     leds2 2 = leds1 1 /\ leds2 3 = leds1 2) /\
    weapon_only_ripple l4 = weapon_only_ripple l.
Proof.
  intros [p f [[[r0 r1] r2] r3]] leds
         [s1 c1 m1 o1] [s2 c2 m2 o2] [s3 c3 m3 o3] [s4 c4 m4 o4]
         H1 H2 H3 H4.
  cbn [state] in H1, H2, H3, H4. subst s1 s2 s3 s4.
  unfold task_state_leds.
  cbn [previous_state first_time weapon_only_ripple state fst snd].
  destruct p, f; cbn; repeat split.
Qed.

Lemma weapon_only_strobe_rotates_witness :
  let a := bench_args STATE_WEAPON_ONLY f50 f50 f50 f50 in
  let l := led_locals_init a in
  let l1 := fst (task_state_leds l a) in
  let leds1 := leds_after (fun _ => false) (snd (task_state_leds l a)) in
  let leds2 := leds_after leds1 (snd (task_state_leds l1 a)) in
  state a = STATE_WEAPON_ONLY /\
  leds1 0 = true /\
  (leds2 0 = leds1 3 /\ leds2 1 = leds1 0 /\
   leds2 2 = leds1 1 /\ leds2 3 = leds1 2).
Proof.
  cbn zeta. split; [ reflexivity | ]. split; [ reflexivity | ].
  exact (proj1 (weapon_only_strobe_rotates
                  (led_locals_init
                     (bench_args STATE_WEAPON_ONLY f50 f50 f50 f50))
                  (fun _ => false)
                  (bench_args STATE_WEAPON_ONLY f50 f50 f50 f50)
                  (bench_args STATE_WEAPON_ONLY f50 f50 f50 f50)
                  (bench_args STATE_WEAPON_ONLY f50 f50 f50 f50)
                  (bench_args STATE_WEAPON_ONLY f50 f50 f50 f50)
                  eq_refl eq_refl eq_refl eq_refl)).
Defined.

(** ** Normalisation and arming together *)

(** X21.  Pulse widths outside the calibrated range saturate: with limits in
    order, a pulse width below [min] is normalised like [min] itself and one
    above [max] like [max] itself. *)
Theorem normalize_saturates :
  forall pw limits,
    (min limits >? max limits)%f32 = false ->
    ((pw <? min limits)%f32 = true ->
     normalize pw limits = normalize (min limits) limits) /\
    ((pw >? max limits)%f32 = true ->
     normalize pw limits = normalize (max limits) limits).
Proof.
  intros pw [lo hi] Hord. cbn [min max] in *.
  assert (Hlo : clamp lo lo hi = lo).
  { unfold clamp, F32.ltb. rewrite SFltb_irrefl, Hord. reflexivity. }
  assert (Hhi : clamp hi lo hi = hi).
  { unfold clamp, F32.gtb. fold (F32.gtb lo hi). fold (F32.ltb hi lo).
    change (hi <? lo)%f32 with (lo >? hi)%f32.
    rewrite Hord. rewrite SFltb_irrefl. reflexivity. }
  split; intros H; unfold normalize; cbn [min max]; cbv zeta.
  - rewrite Hlo. unfold clamp at 1. rewrite H. reflexivity.
  - rewrite Hhi. unfold clamp at 1.
    destruct (pw <? lo)%f32 eqn:Hbelow.
    + unfold F32.ltb, F32.gtb in *.
      rewrite (SFltb_trans _ _ _ H Hbelow) in Hord. discriminate.
    + rewrite H. reflexivity.
Qed.

Lemma normalize_saturates_witness :
  let limits := {| min := F32.of_Z 1000; max := F32.of_Z 2000 |} in
  (min limits >? max limits)%f32 = false /\
  (F32.of_Z 900 <? min limits)%f32 = true /\
  normalize (F32.of_Z 900) limits = normalize (min limits) limits /\
  normalize (F32.of_Z 900) limits = f0.
Proof.
  cbn zeta. split; [ reflexivity | ]. split; [ reflexivity | ].
  split; [ | vm_compute; reflexivity ].
  apply (proj1 (normalize_saturates (F32.of_Z 900)
                  {| min := F32.of_Z 1000; max := F32.of_Z 2000 |}
                  eq_refl)).
  reflexivity.
Defined.

Lemma gtb_nan (x : F32.t) : (S754_nan >? x)%f32 = false.
Proof. destruct x; reflexivity. Qed.

(** X22.  Calibration, receiver and arming together: if the drive
    controller's arm-switch channel delivers the same value, strictly
    between -10000 and 10000, throughout calibration, then after any later pass of the receiver task the arming
    task finds the drive switch off, and after its pass the drive axis is
    not live, whatever the pulse widths, the stall flags and the state
    before. *)
Theorem unmoved_arm_switch_keeps_drive_down :
  forall fuel cfg receiver args v,
    (100 <= fuel)%nat ->
    (1 < RC_NUMBER_CONTROLLERS cfg)%nat ->
    (RC_1_ARM_SWITCH cfg < RC_NUMBER_CHANNELS cfg)%nat ->
    (v <? f10000)%f32 = true ->
    (v >? F32.of_Z (-10000))%f32 = true ->
    (forall k, (k < 100)%nat -> receiver k 1 (RC_1_ARM_SWITCH cfg) = v) ->
    exists args',
      task_calibrate_channels fuel cfg receiver args = Some args' /\
      forall st pulsewidth drive_stalled weapon_stalled,
        drive_live
          (state (task_arming cfg drive_stalled weapon_stalled
                    (task_read_receiver cfg pulsewidth
                       (set_state args' st))))
        = false.
Proof.
  intros fuel cfg receiver args v Hfuel Hc Hch Hlo Hhi Hconst.
  destruct (task_calibrate_channels_cell cfg receiver args Hfuel Hc Hch)
    as [args' [Hrun Hcell]].
  assert (Hlim : channel_limits args' 1 (RC_1_ARM_SWITCH cfg)
                 = {| min := v; max := v |}).
  { rewrite Hcell. apply calibrate_constant_stream; try assumption.
    - discriminate.
    - unfold channel_stream. apply Forall_forall. intros s Hs.
      apply in_map_iff in Hs. destruct Hs as [k [<- Hk]].
      apply in_seq in Hk. apply Hconst. lia. }
  exists args'. split; [ exact Hrun | ].
  intros st pulsewidth d w. rewrite task_arming_state.
  assert (Hsw : switch_on cfg (task_read_receiver cfg pulsewidth
                                 (set_state args' st)) Drive = false).
  { unfold switch_on. rewrite task_read_receiver_controls.
    apply Nat.ltb_lt in Hc, Hch. rewrite Hc, Hch. cbn [andb].
    cbn [channel_limits set_state]. rewrite Hlim.
    rewrite normalize_equal_limits_nan. apply gtb_nan. }
  rewrite Hsw. cbn [andb].
  destruct (state _), (switch_on _ _ Weapon), w,
           (sticks_at_rest _ _ Weapon); reflexivity.
Qed.

Lemma unmoved_arm_switch_keeps_drive_down_witness :
  (100 <= 100)%nat /\
  (1 < RC_NUMBER_CONTROLLERS bench_cfg)%nat /\
  (RC_1_ARM_SWITCH bench_cfg < RC_NUMBER_CHANNELS bench_cfg)%nat /\
  exists args',
    task_calibrate_channels 100 bench_cfg
      (fun k controller channel =>
         match channel with
         | 4 => F32.of_Z 1000
         | _ => F32.of_Z (1000 + Z.of_nat k)
         end)
      (bench_args STATE_DISARMED f50 f50 f50 f50) = Some args' /\
    drive_live
      (state (task_arming bench_cfg false false
                (task_read_receiver bench_cfg (fun _ _ => F32.of_Z 1099)
                   (set_state args' STATE_FULLY_ARMED))))
    = false.
Proof.
  assert (Hc : (1 < RC_NUMBER_CONTROLLERS bench_cfg)%nat) by (cbn; lia).
  assert (Hch : (RC_1_ARM_SWITCH bench_cfg < RC_NUMBER_CHANNELS bench_cfg)%nat)
    by (cbn; lia).
  split; [ lia | ]. split; [ exact Hc | ]. split; [ exact Hch | ].
  destruct (unmoved_arm_switch_keeps_drive_down
              bench_cfg
              (fun k controller channel =>
                 match channel with
                 | 4 => F32.of_Z 1000
                 | _ => F32.of_Z (1000 + Z.of_nat k)
                 end)
              (bench_args STATE_DISARMED f50 f50 f50 f50)
              (le_n 100) Hc Hch
              (eq_refl : (F32.of_Z 1000 <? f10000)%f32 = true)
              (eq_refl : (F32.of_Z 1000 >? F32.of_Z (-10000))%f32 = true)
              (fun k _ => eq_refl))
    as [args' [Hrun Hdown]].
  exists args'. split; [ exact Hrun | apply Hdown ].
Defined.
